(** * Telemetry wire protocol: encoder and decoder of [protocol.py]

    A shallow embedding of [src/protocol/protocol.py] and the proofs of its
    framing properties.  Python integers are [Z], Python floats are the
    fields of their binary64 representation, [bytes] objects are lists of
    [byte], exceptions are values of [exn], and every function lives in a
    small error monad that also counts the iterations of [for] loops. *)

From Stdlib Require Import String ZArith List Lia Bool.
From Stdlib Require Import Strings.Byte.
Import ListNotations.

(** ** The fragment of Python the module relies on *)

Module Py.

(** Why [struct] refused a call. *)
Inductive struct_fault : Type :=
| ArgOutOfRange            (* pack: an argument the format does not take *)
| BufferSize (need : nat). (* unpack: "unpack requires a buffer of n bytes" *)

Inductive exn : Type :=
| ValueError (msg : string)
| struct_error (why : struct_fault)
| OverflowError.

Inductive result (A : Type) : Type :=
| Ok (a : A)
| Raise (e : exn).
Arguments Ok {A} a.
Arguments Raise {A} e.

(** A computation: how many loop iterations were started, and how the call
    ended. *)
Definition M (A : Type) : Type := (nat * result A)%type.

Definition ret {A} (a : A) : M A := (0, Ok a).
Definition raise {A} (e : exn) : M A := (0, Raise e).
Definition tick : M unit := (1, Ok tt).

Definition bind {A B} (m : M A) (f : A -> M B) : M B :=
  match m with
  | (n, Ok a) => let (k, r) := f a in (n + k, r)
  | (n, Raise e) => (n, Raise e)
  end.

Definition iterations {A} (m : M A) : nat := fst m.
Definition outcome {A} (m : M A) : result A := snd m.

Definition bytes : Type := list byte.

(** [l[lo:hi]] for non-negative bounds: never an error, clipped at the end
    of [l]. *)
Definition slice {A} (lo hi : nat) (l : list A) : list A :=
  firstn (hi - lo) (skipn lo l).

(** [range(n)]. *)
Definition range (n : Z) : list Z := map Z.of_nat (seq 0 (Z.to_nat n)).

(** [for x in xs: s = body(x, s)]: one tick per iteration started; an
    exception in the body leaves the loop. *)
Fixpoint for_each {A S} (xs : list A) (body : A -> S -> M S) (s : S) : M S :=
  match xs with
  | [] => ret s
  | x :: xs' =>
      bind tick (fun _ => bind (body x s) (fun s' => for_each xs' body s'))
  end.

End Py.

Import Py.

Declare Scope py_scope.
Delimit Scope py_scope with py.
Notation "x <- m ;; k" := (bind m (fun x => k))
  (at level 61, m at next level, right associativity) : py_scope.
Notation "' p <- m ;; k" := (bind m (fun p => k))
  (at level 61, p pattern, m at next level, right associativity) : py_scope.
Open Scope py_scope.

(** ** Floating-point numbers

    A Python float is an IEEE-754 binary64 number.  Format [f] of [struct]
    stores it as binary32: packing narrows the double the way the C
    conversion to [float] does (round to nearest, ties to even; a NaN keeps
    its sign and the top of its payload and becomes quiet), unpacking widens
    the stored number back (exactly; a NaN becomes quiet). *)

Module IEEE.

Local Open Scope Z_scope.

(** The sign bit, the 11 exponent bits and the 52 fraction bits. *)
Record float64 : Type := mkFloat64 { sign : bool; expo : Z; mant : Z }.

Definition binary64 (v : float64) : Prop :=
  0 <= expo v < 2048 /\ 0 <= mant v < 2 ^ 52.

Definition binary64b (v : float64) : bool :=
  (0 <=? expo v) && (expo v <? 2048) && (0 <=? mant v) && (mant v <? 2 ^ 52).

(** A binary32 number is its 32-bit pattern: sign, 8 exponent bits, 23
    fraction bits. *)
Definition compose32 (sg : bool) (ef mt : Z) : Z :=
  (if sg then 2 ^ 31 else 0) + ef * 2 ^ 23 + mt.

Definition sign32 (s : Z) : bool := 2 ^ 31 <=? s.
Definition expo32 (s : Z) : Z := (s / 2 ^ 23) mod 256.
Definition mant32 (s : Z) : Z := s mod 2 ^ 23.

(** [M / 2^k] rounded to the nearest integer, ties to even. *)
Definition round_half_even (M k : Z) : Z :=
  let d := M / 2 ^ k in
  let r := M mod 2 ^ k in
  let half := 2 ^ (k - 1) in
  if r <? half then d
  else if half <? r then d + 1
  else if Z.even d then d else d + 1.

(** The conversion of a double to single precision; [None] when a finite
    double is beyond the largest single. *)
Definition narrow (v : float64) : option Z :=
  if expo v =? 2047 then
    if mant v =? 0 then Some (compose32 (sign v) 255 0)
    else Some (compose32 (sign v) 255 ((mant v / 2 ^ 29) mod 2 ^ 22 + 2 ^ 22))
  else
    let M := if expo v =? 0 then mant v else 2 ^ 52 + mant v in
    let E := if expo v =? 0 then -1074 else expo v - 1075 in
    if M =? 0 then Some (compose32 (sign v) 0 0)
    else
      let q := Z.max (-149) (Z.log2 M + E - 23) in
      let R := round_half_even M (q - E) in
      if R <? 2 ^ 23 then Some (compose32 (sign v) 0 R)
      else
        let R' := if 2 ^ 24 <=? R then 2 ^ 23 else R in
        let q' := if 2 ^ 24 <=? R then q + 1 else q in
        if 255 <=? q' + 150 then None
        else Some (compose32 (sign v) (q' + 150) (R' - 2 ^ 23)).

(** The double with the same sign, exponent and fraction as a binary32
    pattern: the same number, and for a NaN the same payload and the same
    quiet bit. *)
Definition embed (s : Z) : float64 :=
  let sg := sign32 s in
  let ef := expo32 s in
  let mt := mant32 s in
  if ef =? 255 then mkFloat64 sg 2047 (mt * 2 ^ 29)
  else if ef =? 0 then
    if mt =? 0 then mkFloat64 sg 0 0
    else mkFloat64 sg (Z.log2 mt + 874) (mt * 2 ^ (52 - Z.log2 mt) - 2 ^ 52)
  else mkFloat64 sg (ef + 896) (mt * 2 ^ 29).

(** A signalling NaN: all exponent bits set, a non-zero fraction, the top
    fraction bit clear. *)
Definition signalling32 (s : Z) : bool :=
  (expo32 s =? 255) && negb (mant32 s =? 0) && (mant32 s <? 2 ^ 22).

Definition signalling (v : float64) : bool :=
  (expo v =? 2047) && negb (mant v =? 0) && (mant v <? 2 ^ 51).

Definition quiet32 (s : Z) : Z :=
  if signalling32 s then s + 2 ^ 22 else s.

(** The conversion of a single to double precision. *)
Definition widen (s : Z) : float64 := embed (quiet32 s).

End IEEE.

Import IEEE.

(** ** [struct] with the formats the module uses

    All formats start with [!]: network byte order, standard sizes, no
    padding. *)

Module Struct.

Local Open Scope Z_scope.

Definition byte_of_Z (z : Z) : byte :=
  match Byte.of_N (Z.to_N (z mod 256)) with
  | Some b => b
  | None => x00
  end.

Definition Z_of_byte (b : byte) : Z := Z.of_N (Byte.to_N b).

(** The [n] low bytes of [z], most significant first. *)
Fixpoint be_bytes (n : nat) (z : Z) : bytes :=
  match n with
  | O => []
  | S k => byte_of_Z (z / 256 ^ Z.of_nat k) :: be_bytes k z
  end.

(** The unsigned integer a big-endian byte string denotes. *)
Definition be_value (bs : bytes) : Z :=
  fold_left (fun acc b => acc * 256 + Z_of_byte b) bs 0.

(** An unsigned field of [n] bytes ([B], [H], [I] for 1, 2, 4): [struct]
    raises [struct.error] on an integer that does not fit. *)
Definition pack_uint (n : nat) (x : Z) : M bytes :=
  if (0 <=? x) && (x <? 256 ^ Z.of_nat n)
  then ret (be_bytes n x)
  else raise (struct_error ArgOutOfRange).

Definition pack_B : Z -> M bytes := pack_uint 1.
Definition pack_H : Z -> M bytes := pack_uint 2.
Definition pack_I : Z -> M bytes := pack_uint 4.

(** Format [f]: the four bytes of the double narrowed to single precision;
    [OverflowError] when a finite double is too large for the format.  What
    is not a float at all is refused with [struct.error]. *)
Definition pack_f (v : float64) : M bytes :=
  if binary64b v then
    match narrow v with
    | Some s => ret (be_bytes 4 s)
    | None => raise OverflowError
    end
  else raise (struct_error ArgOutOfRange).

(** [struct.pack('!BBHII', a, b, c, d, e)] *)
Definition pack_BBHII (a b c d e : Z) : M bytes :=
  ba <- pack_B a ;;
  bb <- pack_B b ;;
  bc <- pack_H c ;;
  bd <- pack_I d ;;
  be <- pack_I e ;;
  ret (ba ++ bb ++ bc ++ bd ++ be).

(** [struct.pack('!Bf', a, v)] *)
Definition pack_Bf (a : Z) (v : float64) : M bytes :=
  ba <- pack_B a ;;
  bv <- pack_f v ;;
  ret (ba ++ bv).

(** The unsigned field of [n] bytes at offset [lo] of a buffer. *)
Definition field (lo n : nat) (data : bytes) : Z :=
  be_value (slice lo (lo + n) data).

(** [struct.unpack] demands a buffer of exactly the format's size. *)
Definition unpack_B (data : bytes) : M Z :=
  if (length data =? 1)%nat
  then ret (field 0 1 data)
  else raise (struct_error (BufferSize 1)).

Definition unpack_BBHII (data : bytes) : M (Z * Z * Z * Z * Z) :=
  if (length data =? 12)%nat
  then ret (field 0 1 data, field 1 1 data, field 2 2 data,
            field 4 4 data, field 8 4 data)
  else raise (struct_error (BufferSize 12)).

Definition unpack_Bf (data : bytes) : M (Z * float64) :=
  if (length data =? 5)%nat
  then ret (field 0 1 data, widen (field 1 4 data))
  else raise (struct_error (BufferSize 5)).

End Struct.

(** ** protocol.py *)

Definition VERSION : Z := 1.

Definition MSG_INIT : Z := 0.
Definition MSG_DATA : Z := 1.

Definition SENSOR_TEMP : Z := 1.
Definition SENSOR_HUM : Z := 2.
Definition SENSOR_VOLT : Z := 3.

Definition HEADER_SIZE : nat := 12.
Definition READING_SIZE : nat := 5.
Definition PAYLOAD_LIMIT : nat := 200.

Record SensorReading : Type := mkSensorReading {
  sensor_type : Z;
  value : float64
}.

Record TelemetryPacket : Type := mkTelemetryPacket {
  version : Z;
  msg_type : Z;
  device_id : Z;
  seq_num : Z;
  timestamp : Z;
  readings : list SensorReading
}.

Definition encode_header (version msg_type device_id seq_num timestamp : Z)
  : M bytes :=
  Struct.pack_BBHII version msg_type device_id seq_num timestamp.

Definition encode_reading (sensor_type : Z) (value : float64) : M bytes :=
  Struct.pack_Bf sensor_type value.

(** The body of the encoder's loop; its state is [data]. *)
Definition encode_step (reading : SensorReading) (data : bytes) : M bytes :=
  r <- encode_reading (sensor_type reading) (value reading) ;;
  ret (data ++ r).

Definition encode_packet (packet : TelemetryPacket) : M bytes :=
  data <- encode_header (version packet) (msg_type packet) (device_id packet)
                        (seq_num packet) (timestamp packet) ;;
  if (msg_type packet =? MSG_DATA)%Z then
    let reading_count := length (readings packet) in
    let size := HEADER_SIZE + 1 + reading_count * READING_SIZE in
    if PAYLOAD_LIMIT <? size
    then raise (ValueError "Packet exceeds payload limit"%string)
    else
      count <- Struct.pack_B (Z.of_nat (length (readings packet))) ;;
      for_each (readings packet) encode_step (data ++ count)
  else ret data.

Definition decode_header (data : bytes) : M (Z * Z * Z * Z * Z) :=
  if length data <? HEADER_SIZE
  then raise (ValueError "Data too short for header"%string)
  else Struct.unpack_BBHII (slice 0 HEADER_SIZE data).

Definition decode_reading (data : bytes) : M (Z * float64) :=
  Struct.unpack_Bf (slice 0 READING_SIZE data).

(** The body of the decoder's loop; its state is [(offset, readings)]. *)
Definition decode_step (data : bytes) (_ : Z) (st : nat * list SensorReading)
  : M (nat * list SensorReading) :=
  let (offset, readings) := st in
  '(sensor_type, value) <-
     decode_reading (slice offset (offset + READING_SIZE) data) ;;
  ret (offset + READING_SIZE, readings ++ [mkSensorReading sensor_type value]).

Definition decode_packet (data : bytes) : M TelemetryPacket :=
  '(version, msg_type, device_id, seq_num, timestamp) <- decode_header data ;;
  readings <-
    (if HEADER_SIZE <? length data then
       count <- Struct.unpack_B (slice HEADER_SIZE (HEADER_SIZE + 1) data) ;;
       st <- for_each (range count) (decode_step data) (HEADER_SIZE + 1, []) ;;
       ret (snd st)
     else ret []) ;;
  ret (mkTelemetryPacket version msg_type device_id seq_num timestamp readings).

(** ** Vocabulary of the specification *)

(** The two error conditions the functions raise themselves. *)
Definition PayloadTooLarge : exn := ValueError "Packet exceeds payload limit"%string.
Definition HeaderTooShort : exn := ValueError "Data too short for header"%string.

(** A short-buffer failure: the header check of [decode_header], or the
    refusal of [struct.unpack] to read a reading from fewer than its bytes. *)
Definition TooShort (e : exn) : Prop :=
  e = HeaderTooShort \/ exists n, e = struct_error (BufferSize n).

(** The errors [struct.pack] can raise on a reading. *)
Definition pack_error (e : exn) : Prop :=
  e = struct_error ArgOutOfRange \/ e = OverflowError.

(** Declared widths of the fields. *)
Definition fits (width : nat) (x : Z) : Prop := (0 <= x < 256 ^ Z.of_nat width)%Z.

Definition header_in_range (p : TelemetryPacket) : Prop :=
  fits 1 (version p) /\ fits 1 (msg_type p) /\ fits 2 (device_id p) /\
  fits 4 (seq_num p) /\ fits 4 (timestamp p).

(** A float that format [f] takes: a double that is not beyond the largest
    single. *)
Definition packable (v : float64) : Prop :=
  binary64 v /\ narrow v <> None.

(** The binary32 pattern written for a float that the format takes. *)
Definition single_bits (v : float64) : Z :=
  match narrow v with
  | Some s => s
  | None => 0
  end.

(** A double that is a single-precision number: its sign, exponent and
    fraction are those of a binary32 pattern. *)
Definition single_precision (v : float64) : Prop :=
  exists s, (0 <= s < 2 ^ 32)%Z /\ v = embed s.

Definition reading_in_range (r : SensorReading) : Prop :=
  fits 1 (sensor_type r) /\ packable (value r).

(** A reading whose fields are of the declared types: an unsigned 8-bit
    sensor type and a single-precision value. *)
Definition single_reading (r : SensorReading) : Prop :=
  fits 1 (sensor_type r) /\ single_precision (value r).

(** A reading whose value is not a signalling NaN. *)
Definition quiet_reading (r : SensorReading) : Prop :=
  signalling (value r) = false.

(** A packet with other readings. *)
Definition with_readings (p : TelemetryPacket) (rs : list SensorReading)
  : TelemetryPacket :=
  mkTelemetryPacket (version p) (msg_type p) (device_id p) (seq_num p)
    (timestamp p) rs.

(** A reading as it comes back from the wire: its value rounded to single
    precision. *)
Definition rounded (r : SensorReading) : SensorReading :=
  mkSensorReading (sensor_type r) (widen (single_bits (value r))).

(** The wire form of a header and of a reading whose fields fit. *)
Definition header_bytes (v m d s t : Z) : bytes :=
  Struct.be_bytes 1 v ++ Struct.be_bytes 1 m ++ Struct.be_bytes 2 d ++
  Struct.be_bytes 4 s ++ Struct.be_bytes 4 t.

Definition reading_bytes (r : SensorReading) : bytes :=
  Struct.be_bytes 1 (sensor_type r) ++
  Struct.be_bytes 4 (single_bits (value r)).

(** The frame of a DATA packet whose fields fit: header, count, entries. *)
Definition data_frame (p : TelemetryPacket) : bytes :=
  header_bytes (version p) (msg_type p) (device_id p) (seq_num p) (timestamp p)
  ++ Struct.be_bytes 1 (Z.of_nat (length (readings p)))
  ++ concat (map reading_bytes (readings p)).

(** The readings stored in [n] consecutive 5-byte entries from [off]. *)
Fixpoint readings_at (data : bytes) (off n : nat) : list SensorReading :=
  match n with
  | O => []
  | S k =>
      mkSensorReading (Struct.field off 1 data)
                      (widen (Struct.field (off + 1) 4 data))
      :: readings_at data (off + READING_SIZE) k
  end.

(** No value among [n] consecutive entries from [off] is a signalling NaN. *)
Fixpoint entries_quiet (data : bytes) (off n : nat) : Prop :=
  match n with
  | O => True
  | S k =>
      signalling32 (Struct.field (off + 1) 4 data) = false /\
      entries_quiet data (off + READING_SIZE) k
  end.

(** The header fields stored in the first 12 bytes, with given readings. *)
Definition packet_at (data : bytes) (rs : list SensorReading) : TelemetryPacket :=
  mkTelemetryPacket (Struct.field 0 1 data) (Struct.field 1 1 data)
    (Struct.field 2 2 data) (Struct.field 4 4 data) (Struct.field 8 4 data) rs.

(** The reading count a buffer longer than the header declares. *)
Definition declared_count (data : bytes) : nat :=
  Z.to_nat (Struct.field HEADER_SIZE 1 data).

(** The readings a call returns, or the exception that ended it. *)
Definition readings_outcome (m : M TelemetryPacket)
  : result (list SensorReading) :=
  match outcome m with
  | Ok p => Ok (readings p)
  | Raise e => Raise e
  end.

(** What the bytes after the header decode to, on their own. *)
Definition parse_section (tail : bytes) : result (list SensorReading) :=
  match tail with
  | [] => Ok []
  | _ :: _ =>
      let count := Z.to_nat (Struct.field 0 1 tail) in
      if 1 + READING_SIZE * count <=? length tail
      then Ok (readings_at tail 1 count)
      else Raise (struct_error (BufferSize 5))
  end.

(** ** Sample packets and buffers *)

(** The doubles 25.0, 60.5 and 3.3, the single nearest to 3.3, and a
    signalling NaN whose payload fits single precision. *)
Definition f25_0 : float64 := mkFloat64 false 1027 0x9000000000000.
Definition f60_5 : float64 := mkFloat64 false 1028 0xE400000000000.
Definition f3_3 : float64 := mkFloat64 false 1024 0xA666666666666.
Definition f3_3_single : float64 := mkFloat64 false 1024 0xA666660000000.
Definition snan : float64 := mkFloat64 false 2047 0x20000000.

(** The DATA packet of the module's self-test. *)
Definition sample_selftest : TelemetryPacket :=
  mkTelemetryPacket VERSION MSG_DATA 1001 1 1234567890
    [ mkSensorReading SENSOR_TEMP f25_0;
      mkSensorReading SENSOR_HUM f60_5;
      mkSensorReading SENSOR_VOLT f3_3 ].

(** The same packet with single-precision values. *)
Definition sample_data : TelemetryPacket :=
  mkTelemetryPacket VERSION MSG_DATA 1001 1 1234567890
    [ mkSensorReading SENSOR_TEMP f25_0;
      mkSensorReading SENSOR_HUM f60_5;
      mkSensorReading SENSOR_VOLT f3_3_single ].

(** A DATA packet whose one value is a signalling NaN. *)
Definition sample_snan : TelemetryPacket :=
  mkTelemetryPacket VERSION MSG_DATA 1001 1 1234567890
    [ mkSensorReading SENSOR_TEMP snan ].

(** An INIT packet that carries a reading all the same. *)
Definition sample_init : TelemetryPacket :=
  mkTelemetryPacket VERSION MSG_INIT 1001 0 1234567890
    [ mkSensorReading SENSOR_TEMP f25_0 ].

(** A DATA packet with [n] copies of one reading. *)
Definition sample_full (n : nat) : TelemetryPacket :=
  mkTelemetryPacket VERSION MSG_DATA 1001 7 1234567890
    (repeat (mkSensorReading SENSOR_VOLT f3_3) n).

(** The 12 header bytes of [sample_init]. *)
Definition sample_header : bytes :=
  [x01; x00; x03; xe9; x00; x00; x00; x00; x49; x96; x02; xd2].

(** ** The monad and the loop *)

Section MonadFacts.

Context {A B : Type}.

Lemma bind_ret (a : A) (f : A -> M B) : bind (ret a) f = f a.
Proof. unfold bind, ret. destruct (f a); reflexivity. Qed.

Lemma bind_raise (e : exn) (f : A -> M B) : bind (raise e) f = raise e.
Proof. reflexivity. Qed.

Lemma bind_tick (m : M B) : bind tick (fun _ => m) = (S (fst m), snd m).
Proof. destruct m; reflexivity. Qed.

Lemma iterations_bind (m : M A) (f : A -> M B) :
  iterations (bind m f) =
  match outcome m with
  | Ok a => iterations m + iterations (f a)
  | Raise _ => iterations m
  end.
Proof.
  destruct m as [n [a|e]]; simpl; [destruct (f a) | ]; reflexivity.
Qed.

Lemma outcome_bind (m : M A) (f : A -> M B) :
  outcome (bind m f) =
  match outcome m with
  | Ok a => outcome (f a)
  | Raise e => Raise e
  end.
Proof.
  destruct m as [n [a|e]]; simpl; [destruct (f a) | ]; reflexivity.
Qed.

End MonadFacts.

Section LoopFacts.

Context {A S : Type} (body : A -> S -> M S).

Lemma for_each_cons_ok x xs s s' :
  body x s = ret s' ->
  for_each (x :: xs) body s =
  (Datatypes.S (fst (for_each xs body s')), snd (for_each xs body s')).
Proof.
  intros E. cbn [for_each]. rewrite E, bind_ret. apply bind_tick.
Qed.

Lemma for_each_cons_raise x xs s e :
  body x s = raise e -> for_each (x :: xs) body s = (1, Raise e).
Proof.
  intros E. cbn [for_each]. rewrite E, bind_raise. reflexivity.
Qed.

(** A loop whose body has no loop of its own starts at most one iteration
    per element. *)
Lemma for_each_iterations xs :
  (forall x s, iterations (body x s) = 0) ->
  forall s, iterations (for_each xs body s) <= List.length xs.
Proof.
  intros Hb. induction xs as [|x xs IH]; intros s; [apply Nat.le_refl|].
  cbn [for_each]. rewrite bind_tick. unfold iterations in *. cbn [fst List.length].
  apply le_n_S. specialize (Hb x s).
  destruct (body x s) as [n [s'|e]]; cbn in Hb; subst n; cbn.
  - specialize (IH s'). destruct (for_each xs body s'); exact IH.
  - apply Nat.le_0_l.
Qed.

End LoopFacts.

(** ** Slices *)

Section SliceFacts.

Context {A : Type}.
Implicit Types l pre mid rest : list A.

Lemma slice_length lo hi l :
  List.length (slice lo hi l) = Nat.min (hi - lo) (List.length l - lo).
Proof. unfold slice. rewrite length_firstn, length_skipn. reflexivity. Qed.

Lemma slice_slice a b c d l :
  c + b <= d -> slice a b (slice c d l) = slice (c + a) (c + b) l.
Proof.
  intros H. unfold slice.
  rewrite skipn_firstn_comm, firstn_firstn, skipn_skipn.
  replace (Nat.min (b - a) (d - c - a)) with (c + b - (c + a)) by lia.
  replace (a + c) with (c + a) by lia. reflexivity.
Qed.

Lemma slice_firstn lo hi k l :
  hi <= k -> slice lo hi (firstn k l) = slice lo hi l.
Proof.
  intros H. unfold slice.
  rewrite skipn_firstn_comm, firstn_firstn.
  replace (Nat.min (hi - lo) (k - lo)) with (hi - lo) by lia. reflexivity.
Qed.

Lemma slice_app_mid pre mid rest :
  slice (List.length pre) (List.length pre + List.length mid)
        (pre ++ mid ++ rest) = mid.
Proof.
  unfold slice. rewrite skipn_app, skipn_all, Nat.sub_diag. cbn.
  replace (List.length pre + List.length mid - List.length pre)
    with (List.length mid + 0) by lia.
  rewrite firstn_app_2. cbn. apply app_nil_r.
Qed.

End SliceFacts.

(** ** Narrowing and widening floats *)

Section FloatFacts.

Local Open Scope Z_scope.

Lemma fields32 s :
  0 <= s < 2 ^ 32 ->
  0 <= expo32 s < 256 /\ 0 <= mant32 s < 2 ^ 23 /\
  s = compose32 (sign32 s) (expo32 s) (mant32 s).
Proof.
  intros H. unfold expo32, mant32, sign32, compose32.
  pose proof (Z.div_mod s (2 ^ 23) ltac:(lia)) as D.
  pose proof (Z.mod_pos_bound s (2 ^ 23) ltac:(lia)) as B.
  pose proof (Z.div_mod (s / 2 ^ 23) 256 ltac:(lia)) as D2.
  pose proof (Z.mod_pos_bound (s / 2 ^ 23) 256 ltac:(lia)) as B2.
  assert (Q : 0 <= s / 2 ^ 23 < 512)
    by (split; [apply Z.div_pos; lia | apply Z.div_lt_upper_bound; lia]).
  destruct (Z.leb_spec (2 ^ 31) s) as [Hs|Hs]; repeat split; try lia.
Qed.

Lemma round_exact a k :
  0 < k -> 0 <= a -> round_half_even (a * 2 ^ k) k = a.
Proof.
  intros Hk Ha. unfold round_half_even.
  assert (P : 0 < 2 ^ k) by (apply Z.pow_pos_nonneg; lia).
  assert (P' : 0 < 2 ^ (k - 1)) by (apply Z.pow_pos_nonneg; lia).
  rewrite Z.div_mul, Z.mod_mul by lia.
  destruct (Z.ltb_spec 0 (2 ^ (k - 1))); [reflexivity|lia].
Qed.

Lemma round_nonneg M k : 0 <= M -> 0 <= round_half_even M k.
Proof.
  intros HM. unfold round_half_even.
  assert (D : 0 <= M / 2 ^ k).
  { pose proof (Z.pow_nonneg 2 k ltac:(lia)) as P.
    destruct (Z.eq_dec (2 ^ k) 0) as [Z0|Z0].
    - rewrite Z0, Z.div_0_r. lia.
    - apply Z.div_pos; lia. }
  destruct (_ <? _); [lia|]. destruct (_ <? _); [lia|].
  destruct (Z.even _); lia.
Qed.

Lemma quiet32_range s : 0 <= s < 2 ^ 32 -> 0 <= quiet32 s < 2 ^ 32.
Proof.
  intros H. unfold quiet32. destruct (signalling32 s) eqn:E; [|exact H].
  unfold signalling32 in E. apply andb_prop in E as [E E3].
  apply andb_prop in E as [E1 E2].
  apply Z.eqb_eq in E1. apply Z.ltb_lt in E3.
  destruct (fields32 s H) as (_ & _ & C). rewrite E1 in C.
  unfold compose32 in C. destruct (sign32 s); lia.
Qed.

Lemma narrow_embed s :
  0 <= s < 2 ^ 32 -> narrow (embed s) = Some (quiet32 s).
Proof.
  intros H. destruct (fields32 s H) as (He & Hm & C).
  unfold quiet32, signalling32, embed.
  set (sg := sign32 s) in *. set (ef := expo32 s) in *. set (mt := mant32 s) in *.
  clearbody sg ef mt. clear H. subst s.
  destruct (Z.eqb_spec ef 255) as [E255|E255].
  - (* infinities and NaNs *)
    subst ef. unfold narrow. cbn [expo mant sign]. rewrite Z.eqb_refl.
    destruct (Z.eqb_spec mt 0) as [M0|M0].
    + subst mt. reflexivity.
    + destruct (Z.eqb_spec (mt * 2 ^ 29) 0) as [X|_]; [lia|].
      rewrite Z.div_mul by lia. cbn [negb andb]. f_equal.
      destruct (Z.ltb_spec mt (2 ^ 22)) as [Q|Q].
      * rewrite Z.mod_small by lia. unfold compose32. lia.
      * pose proof (Z.div_mod mt (2 ^ 22) ltac:(lia)) as D.
        assert (mt / 2 ^ 22 = 1).
        { apply Z.le_antisymm.
          - apply Z.lt_succ_r. apply Z.div_lt_upper_bound; lia.
          - apply Z.div_le_lower_bound; lia. }
        unfold compose32. lia.
  - cbn [andb].
    destruct (Z.eqb_spec ef 0) as [E0|E0].
    + destruct (Z.eqb_spec mt 0) as [M0|M0].
      * (* zeros *) subst. reflexivity.
      * (* subnormal single, normal double *)
        set (k := Z.log2 mt).
        assert (Hpos : 0 < mt) by lia.
        pose proof (Z.log2_spec mt Hpos) as L. fold k in L.
        assert (Hk : 0 <= k < 23).
        { split; [apply Z.log2_nonneg|].
          apply Z.log2_lt_pow2; lia. }
        assert (P : 2 ^ 52 = 2 ^ k * 2 ^ (52 - k))
          by (rewrite <- Z.pow_add_r by lia; f_equal; lia).
        assert (Pk : 0 < 2 ^ k) by (apply Z.pow_pos_nonneg; lia).
        assert (Pr : 0 < 2 ^ (52 - k)) by (apply Z.pow_pos_nonneg; lia).
        assert (S1 : 2 ^ (Z.succ k) = 2 * 2 ^ k) by (apply Z.pow_succ_r; lia).
        unfold narrow. cbn [expo mant sign].
        destruct (Z.eqb_spec (k + 874) 2047) as [X|_]; [lia|].
        destruct (Z.eqb_spec (k + 874) 0) as [X|_]; [lia|].
        replace (2 ^ 52 + (mt * 2 ^ (52 - k) - 2 ^ 52)) with (mt * 2 ^ (52 - k)) by lia.
        assert (LM : Z.log2 (mt * 2 ^ (52 - k)) = 52).
        { apply Z.log2_unique; [lia|]. change (Z.succ 52) with 53.
          replace (2 ^ 53) with (2 * 2 ^ 52) by reflexivity. nia. }
        destruct (Z.eqb_spec (mt * 2 ^ (52 - k)) 0) as [X|_]; [nia|].
        rewrite LM.
        replace (Z.max (-149) (52 + (k + 874 - 1075) - 23)) with (-149) by lia.
        replace (-149 - (k + 874 - 1075)) with (52 - k) by lia.
        rewrite round_exact by lia.
        destruct (Z.ltb_spec mt (2 ^ 23)) as [_|X]; [|lia].
        subst ef. reflexivity.
    + (* normal single *)
      unfold narrow. cbn [expo mant sign].
      destruct (Z.eqb_spec (ef + 896) 2047) as [X|_]; [lia|].
      destruct (Z.eqb_spec (ef + 896) 0) as [X|_]; [lia|].
      replace (2 ^ 52 + mt * 2 ^ 29) with ((2 ^ 23 + mt) * 2 ^ 29) by lia.
      assert (LM : Z.log2 ((2 ^ 23 + mt) * 2 ^ 29) = 52).
      { apply Z.log2_unique; [lia|]. change (Z.succ 52) with 53. lia. }
      destruct (Z.eqb_spec ((2 ^ 23 + mt) * 2 ^ 29) 0) as [X|_]; [lia|].
      rewrite LM.
      replace (Z.max (-149) (52 + (ef + 896 - 1075) - 23))
        with (ef - 150) by lia.
      replace (ef - 150 - (ef + 896 - 1075)) with 29 by lia.
      rewrite round_exact by lia.
      destruct (Z.ltb_spec (2 ^ 23 + mt) (2 ^ 23)) as [X|_]; [lia|].
      destruct (Z.leb_spec (2 ^ 24) (2 ^ 23 + mt)) as [X|_]; [lia|].
      destruct (Z.leb_spec 255 (ef - 150 + 150)) as [X|_]; [lia|].
      f_equal. unfold compose32. lia.
Qed.

Lemma embed_binary64 s : 0 <= s < 2 ^ 32 -> binary64 (embed s).
Proof.
  intros H. destruct (fields32 s H) as (He & Hm & _).
  unfold embed, binary64.
  destruct (Z.eqb_spec (expo32 s) 255); [cbn [expo mant]; lia|].
  destruct (Z.eqb_spec (expo32 s) 0); [|cbn [expo mant]; lia].
  destruct (Z.eqb_spec (mant32 s) 0); [cbn [expo mant]; lia|].
  set (mt := mant32 s) in *. set (k := Z.log2 mt).
  assert (Hpos : 0 < mt) by lia.
  pose proof (Z.log2_spec mt Hpos) as L. fold k in L.
  assert (Hk : 0 <= k < 23).
  { split; [apply Z.log2_nonneg|]. apply Z.log2_lt_pow2; lia. }
  assert (P : 2 ^ 52 = 2 ^ k * 2 ^ (52 - k))
    by (rewrite <- Z.pow_add_r by lia; f_equal; lia).
  assert (Pk : 0 < 2 ^ k) by (apply Z.pow_pos_nonneg; lia).
  assert (Pr : 0 < 2 ^ (52 - k)) by (apply Z.pow_pos_nonneg; lia).
  assert (S1 : 2 ^ (Z.succ k) = 2 * 2 ^ k) by (apply Z.pow_succ_r; lia).
  cbn [expo mant]. split; [lia|]. nia.
Qed.

Lemma narrow_range v s :
  binary64 v -> narrow v = Some s -> 0 <= s < 2 ^ 32.
Proof.
  intros [He Hm] N. unfold narrow in N.
  destruct (expo v =? 2047).
  - destruct (mant v =? 0); injection N as <-; unfold compose32.
    + destruct (sign v); lia.
    + pose proof (Z.mod_pos_bound (mant v / 2 ^ 29) (2 ^ 22) ltac:(lia)).
      destruct (sign v); lia.
  - set (M := if expo v =? 0 then mant v else 2 ^ 52 + mant v) in *.
    set (E := if expo v =? 0 then -1074 else expo v - 1075) in *.
    destruct (M =? 0); [injection N as <-; unfold compose32; destruct (sign v); lia|].
    set (q := Z.max (-149) (Z.log2 M + E - 23)) in *.
    set (R := round_half_even M (q - E)) in *.
    assert (HM : 0 <= M) by (unfold M; destruct (expo v =? 0); lia).
    assert (HR : 0 <= R) by (apply round_nonneg, HM).
    destruct (Z.ltb_spec R (2 ^ 23)) as [Hs|Hs].
    + injection N as <-. unfold compose32. destruct (sign v); lia.
    + assert (Hq : -149 <= q) by (unfold q; lia).
      destruct (Z.leb_spec (2 ^ 24) R) as [Hc|Hc].
      * destruct (Z.leb_spec 255 (q + 1 + 150)) as [Ho|Ho]; [discriminate N|].
        injection N as <-. unfold compose32. destruct (sign v); lia.
      * destruct (Z.leb_spec 255 (q + 150)) as [Ho|Ho]; [discriminate N|].
        injection N as <-. unfold compose32. destruct (sign v); lia.
Qed.

Lemma binary64b_spec v : binary64b v = true <-> binary64 v.
Proof.
  unfold binary64b, binary64. rewrite !andb_true_iff.
  rewrite !Z.leb_le, !Z.ltb_lt. tauto.
Qed.

Lemma fields_compose32 sg ef mt :
  0 <= ef < 256 -> 0 <= mt < 2 ^ 23 ->
  sign32 (compose32 sg ef mt) = sg /\
  expo32 (compose32 sg ef mt) = ef /\
  mant32 (compose32 sg ef mt) = mt.
Proof.
  intros He Hm. unfold sign32, expo32, mant32, compose32.
  set (h := if sg then 2 ^ 31 else 0).
  assert (Hh : h = (if sg then 256 else 0) * 2 ^ 23) by (unfold h; destruct sg; reflexivity).
  split; [|split].
  - unfold h. destruct sg.
    + apply Z.leb_le. lia.
    + apply Z.leb_gt. lia.
  - rewrite Hh.
    replace ((if sg then 256 else 0) * 2 ^ 23 + ef * 2 ^ 23 + mt)
      with (mt + ((if sg then 256 else 0) + ef) * 2 ^ 23) by lia.
    rewrite Z.div_add by lia. rewrite Z.div_small by lia.
    destruct sg.
    + replace (0 + (256 + ef)) with (ef + 1 * 256) by lia.
      rewrite Z.mod_add by lia. apply Z.mod_small. lia.
    + rewrite !Z.add_0_l. apply Z.mod_small. lia.
  - rewrite Hh.
    replace ((if sg then 256 else 0) * 2 ^ 23 + ef * 2 ^ 23 + mt)
      with (mt + ((if sg then 256 else 0) + ef) * 2 ^ 23) by lia.
    rewrite Z.mod_add by lia. apply Z.mod_small. lia.
Qed.

Lemma signalling32_quiet32 s :
  0 <= s < 2 ^ 32 -> signalling32 (quiet32 s) = false.
Proof.
  intros H. unfold quiet32. destruct (signalling32 s) eqn:E; [|exact E].
  unfold signalling32 in E. apply andb_prop in E as [E E3].
  apply andb_prop in E as [E1 E2].
  apply Z.eqb_eq in E1. apply Z.ltb_lt in E3.
  destruct (fields32 s H) as (_ & Hm & C). rewrite E1 in C.
  assert (Q : s + 2 ^ 22 = compose32 (sign32 s) 255 (mant32 s + 2 ^ 22))
    by (rewrite C at 1; unfold compose32; lia).
  rewrite Q.
  destruct (fields_compose32 (sign32 s) 255 (mant32 s + 2 ^ 22)) as (_ & Fe & Fm);
    [lia|lia|].
  unfold signalling32. rewrite Fe, Fm.
  destruct (Z.ltb_spec (mant32 s + 2 ^ 22) (2 ^ 22)) as [X|_]; [lia|].
  apply andb_false_r.
Qed.

Lemma quiet32_fixed s : signalling32 s = false -> quiet32 s = s.
Proof. intros E. unfold quiet32. rewrite E. reflexivity. Qed.

Lemma narrow_widen s :
  0 <= s < 2 ^ 32 -> narrow (widen s) = Some (quiet32 s).
Proof.
  intros H. unfold widen. rewrite narrow_embed by (apply quiet32_range, H).
  rewrite quiet32_fixed by (apply signalling32_quiet32, H). reflexivity.
Qed.

Lemma widen_binary64 s : 0 <= s < 2 ^ 32 -> binary64 (widen s).
Proof. intros H. apply embed_binary64, quiet32_range, H. Qed.

Lemma signalling_embed s :
  0 <= s < 2 ^ 32 -> signalling (embed s) = signalling32 s.
Proof.
  intros H. destruct (fields32 s H) as (He & Hm & _).
  unfold signalling, signalling32, embed.
  destruct (Z.eqb_spec (expo32 s) 255) as [E|E].
  - cbn [expo mant]. rewrite Z.eqb_refl. cbn [andb]. f_equal.
    + f_equal. destruct (Z.eqb_spec (mant32 s) 0), (Z.eqb_spec (mant32 s * 2 ^ 29) 0);
        try reflexivity; lia.
    + destruct (Z.ltb_spec (mant32 s) (2 ^ 22)), (Z.ltb_spec (mant32 s * 2 ^ 29) (2 ^ 51));
        try reflexivity; lia.
  - cbn [andb].
    destruct (Z.eqb_spec (expo32 s) 0) as [E0|E0].
    + destruct (Z.eqb_spec (mant32 s) 0) as [M0|M0]; cbn [expo mant].
      * reflexivity.
      * assert (Hk : 0 <= Z.log2 (mant32 s) < 23).
        { split; [apply Z.log2_nonneg|]. apply Z.log2_lt_pow2; lia. }
        destruct (Z.eqb_spec (Z.log2 (mant32 s) + 874) 2047); [lia|reflexivity].
    + cbn [expo mant].
      destruct (Z.eqb_spec (expo32 s + 896) 2047); [lia|reflexivity].
Qed.

(** The conversions on some values: 3.3 is rounded, a signalling NaN comes
    out quiet in either direction, [2^129] is too large. *)
Example narrow_3_3 : narrow f3_3 = Some 0x40533333.
Proof. vm_compute. reflexivity. Qed.

Example widen_3_3 : widen 0x40533333 = f3_3_single.
Proof. vm_compute. reflexivity. Qed.

Example narrow_25_0 : narrow f25_0 = Some 0x41C80000.
Proof. vm_compute. reflexivity. Qed.

Example narrow_snan : narrow snan = Some 0x7FC00001.
Proof. vm_compute. reflexivity. Qed.

Example widen_snan : widen 0x7F800001 = mkFloat64 false 2047 0x8000020000000.
Proof. vm_compute. reflexivity. Qed.

Example embed_snan : embed 0x7F800001 = snan.
Proof. vm_compute. reflexivity. Qed.

Example narrow_too_large : narrow (mkFloat64 false 1152 0) = None.
Proof. vm_compute. reflexivity. Qed.

End FloatFacts.

(** ** Bytes and big-endian integers *)

Module StructFacts.

Import Struct.
Local Open Scope Z_scope.

Lemma Z_of_byte_range b : 0 <= Z_of_byte b < 256.
Proof.
  unfold Z_of_byte. pose proof (Byte.to_N_bounded b). lia.
Qed.

Lemma Z_of_byte_of_Z z : Z_of_byte (byte_of_Z z) = z mod 256.
Proof.
  unfold Z_of_byte, byte_of_Z.
  pose proof (Z.mod_pos_bound z 256 eq_refl) as Hm.
  destruct (Byte.of_N (Z.to_N (z mod 256))) as [b|] eqn:E.
  - apply Byte.to_of_N in E. rewrite E. lia.
  - apply Byte.of_N_None_iff in E. lia.
Qed.

Lemma byte_of_Z_of_byte b : byte_of_Z (Z_of_byte b) = b.
Proof.
  unfold byte_of_Z. pose proof (Z_of_byte_range b) as Hr.
  rewrite Z.mod_small by exact Hr.
  unfold Z_of_byte. rewrite N2Z.id, Byte.of_to_N. reflexivity.
Qed.

Lemma be_bytes_length n z : List.length (be_bytes n z) = n.
Proof. induction n; cbn [be_bytes List.length]; congruence. Qed.

Lemma be_fold n : forall z acc,
  fold_left (fun a b => a * 256 + Z_of_byte b) (be_bytes n z) acc =
  acc * 256 ^ Z.of_nat n + z mod 256 ^ Z.of_nat n.
Proof.
  induction n as [|k IH]; intros z acc.
  - cbn. rewrite Z.mod_1_r. lia.
  - cbn [be_bytes fold_left]. rewrite IH, Z_of_byte_of_Z.
    rewrite Nat2Z.inj_succ, Z.pow_succ_r by lia.
    assert (Hp : 0 < 256 ^ Z.of_nat k) by (apply Z.pow_pos_nonneg; lia).
    rewrite (Z.mul_comm 256 (256 ^ Z.of_nat k)).
    rewrite (Z.rem_mul_r z (256 ^ Z.of_nat k) 256) by lia.
    lia.
Qed.

Lemma be_value_be_bytes n z : be_value (be_bytes n z) = z mod 256 ^ Z.of_nat n.
Proof. unfold be_value. rewrite be_fold. lia. Qed.

Lemma be_value_fits n z :
  0 <= z < 256 ^ Z.of_nat n -> be_value (be_bytes n z) = z.
Proof. intros H. rewrite be_value_be_bytes. apply Z.mod_small, H. Qed.

Lemma be_value_single b : be_value [b] = Z_of_byte b.
Proof. reflexivity. Qed.

(** A field read where the buffer holds the packed integer. *)
Lemma field_packed pre n z rest :
  0 <= z < 256 ^ Z.of_nat n ->
  field (List.length pre) n (pre ++ be_bytes n z ++ rest) = z.
Proof.
  intros H. unfold field.
  pose proof (slice_app_mid pre (be_bytes n z) rest) as E.
  rewrite be_bytes_length in E. rewrite E. apply be_value_fits, H.
Qed.

Lemma field_firstn lo n k data :
  (lo + n <= k)%nat -> field lo n (firstn k data) = field lo n data.
Proof. intros H. unfold field. rewrite slice_firstn by exact H. reflexivity. Qed.

Lemma field_slice lo n c d data :
  (c + (lo + n) <= d)%nat -> field lo n (slice c d data) = field (c + lo) n data.
Proof.
  intros H. unfold field. rewrite slice_slice by exact H.
  rewrite Nat.add_assoc. reflexivity.
Qed.

(** A one-byte field is below 256. *)
Lemma field_byte_range lo data : 0 <= field lo 1 data < 256.
Proof.
  unfold field.
  pose proof (slice_length lo (lo + 1) data) as L.
  destruct (slice lo (lo + 1) data) as [|b [|b' l]].
  - cbn. lia.
  - rewrite be_value_single. apply Z_of_byte_range.
  - cbn [List.length] in L. lia.
Qed.

Lemma pack_uint_fits n x :
  0 <= x < 256 ^ Z.of_nat n -> pack_uint n x = ret (be_bytes n x).
Proof.
  intros [H1 H2]. unfold pack_uint.
  apply Z.leb_le in H1. apply Z.ltb_lt in H2. rewrite H1, H2. reflexivity.
Qed.

Lemma pack_uint_refuses n x :
  ~ (0 <= x < 256 ^ Z.of_nat n) ->
  pack_uint n x = raise (struct_error ArgOutOfRange).
Proof.
  intros H. unfold pack_uint.
  destruct (0 <=? x) eqn:E1; [ destruct (x <? 256 ^ Z.of_nat n) eqn:E2 | ];
    try reflexivity.
  apply Z.leb_le in E1. apply Z.ltb_lt in E2. exfalso. apply H. lia.
Qed.

(** Either outcome of packing an unsigned field. *)
Lemma pack_uint_cases n x :
  pack_uint n x = ret (be_bytes n x) \/
  pack_uint n x = raise (struct_error ArgOutOfRange).
Proof.
  unfold pack_uint. destruct ((0 <=? x) && (x <? 256 ^ Z.of_nat n)); auto.
Qed.

Lemma pack_f_fits v :
  packable v -> pack_f v = ret (be_bytes 4 (single_bits v)).
Proof.
  intros [B N]. unfold pack_f, single_bits.
  apply binary64b_spec in B. rewrite B.
  destruct (narrow v); [reflexivity|contradiction].
Qed.

Lemma pack_f_refuses v :
  ~ packable v ->
  pack_f v = raise OverflowError \/
  pack_f v = raise (struct_error ArgOutOfRange).
Proof.
  intros H. unfold pack_f.
  destruct (binary64b v) eqn:B; [|right; reflexivity].
  apply binary64b_spec in B.
  destruct (narrow v) eqn:N; [|left; reflexivity].
  exfalso. apply H. split; [exact B|]. rewrite N. discriminate.
Qed.

Lemma pack_f_cases v :
  pack_f v = ret (be_bytes 4 (single_bits v)) \/
  pack_f v = raise OverflowError \/
  pack_f v = raise (struct_error ArgOutOfRange).
Proof.
  unfold pack_f, single_bits. destruct (binary64b v); [|auto].
  destruct (narrow v); auto.
Qed.

Lemma packable_dec v : {packable v} + {~ packable v}.
Proof.
  unfold packable. destruct (binary64b v) eqn:B.
  - apply binary64b_spec in B. destruct (narrow v) eqn:N.
    + left. split; [exact B|discriminate].
    + right. intros [_ X]. apply X. reflexivity.
  - right. intros [X _]. apply binary64b_spec in X. congruence.
Qed.

(** What is written for a float the format takes is a 32-bit pattern. *)
Lemma single_bits_range v : packable v -> 0 <= single_bits v < 256 ^ Z.of_nat 4.
Proof.
  intros [B N]. unfold single_bits. destruct (narrow v) as [s|] eqn:E;
    [|contradiction].
  change (256 ^ Z.of_nat 4) with (2 ^ 32). exact (narrow_range v s B E).
Qed.

(** A value read from the wire can be written again; what is written is
    the pattern that was read, made quiet. *)
Lemma widen_packable s : 0 <= s < 2 ^ 32 -> packable (widen s).
Proof.
  intros H. split; [apply widen_binary64, H|].
  rewrite narrow_widen by exact H. discriminate.
Qed.

Lemma single_bits_widen s :
  0 <= s < 2 ^ 32 -> single_bits (widen s) = quiet32 s.
Proof. intros H. unfold single_bits. rewrite narrow_widen by exact H. reflexivity. Qed.

(** A single-precision value that is not a signalling NaN passes through
    the format unchanged. *)
Lemma widen_single_bits_embed s :
  0 <= s < 2 ^ 32 -> signalling32 s = false ->
  packable (embed s) /\ widen (single_bits (embed s)) = embed s.
Proof.
  intros H Q. unfold packable, single_bits.
  rewrite narrow_embed by exact H. rewrite (quiet32_fixed s Q).
  split; [split; [apply embed_binary64, H|discriminate]|].
  unfold widen. rewrite (quiet32_fixed s Q). reflexivity.
Qed.

End StructFacts.

(** ** The encoder *)

Section EncoderFacts.

Import Struct StructFacts.

Lemma header_bytes_length v m d s t :
  List.length (header_bytes v m d s t) = HEADER_SIZE.
Proof.
  unfold header_bytes. rewrite !length_app, !be_bytes_length. reflexivity.
Qed.

Lemma reading_bytes_length r : List.length (reading_bytes r) = READING_SIZE.
Proof.
  unfold reading_bytes. rewrite length_app, !be_bytes_length. reflexivity.
Qed.

Lemma encode_header_fits v m d s t :
  fits 1 v -> fits 1 m -> fits 2 d -> fits 4 s -> fits 4 t ->
  encode_header v m d s t = ret (header_bytes v m d s t).
Proof.
  intros Hv Hm Hd Hs Ht. unfold encode_header, pack_BBHII, pack_B, pack_H, pack_I.
  rewrite (pack_uint_fits 1 v Hv), bind_ret, (pack_uint_fits 1 m Hm), bind_ret.
  rewrite (pack_uint_fits 2 d Hd), bind_ret, (pack_uint_fits 4 s Hs), bind_ret.
  rewrite (pack_uint_fits 4 t Ht), bind_ret. reflexivity.
Qed.

(** [struct.pack] has no third outcome: the packed header, or its error. *)
Lemma encode_header_cases v m d s t :
  encode_header v m d s t = ret (header_bytes v m d s t) \/
  encode_header v m d s t = raise (struct_error ArgOutOfRange).
Proof.
  unfold encode_header, pack_BBHII, pack_B, pack_H, pack_I.
  destruct (pack_uint_cases 1 v) as [E|E]; rewrite E; [rewrite bind_ret|auto].
  destruct (pack_uint_cases 1 m) as [E1|E1]; rewrite E1; [rewrite bind_ret|auto].
  destruct (pack_uint_cases 2 d) as [E2|E2]; rewrite E2; [rewrite bind_ret|auto].
  destruct (pack_uint_cases 4 s) as [E3|E3]; rewrite E3; [rewrite bind_ret|auto].
  destruct (pack_uint_cases 4 t) as [E4|E4]; rewrite E4; [rewrite bind_ret|auto].
  left. reflexivity.
Qed.

Lemma encode_step_fits r data :
  reading_in_range r -> encode_step r data = ret (data ++ reading_bytes r).
Proof.
  intros [Ht Hv]. unfold encode_step, encode_reading, pack_Bf, pack_B.
  rewrite (pack_uint_fits 1 _ Ht), bind_ret, (pack_f_fits _ Hv), !bind_ret.
  reflexivity.
Qed.

Lemma encode_step_cases r data :
  encode_step r data = ret (data ++ reading_bytes r) \/
  exists e, pack_error e /\ encode_step r data = raise e.
Proof.
  unfold encode_step, encode_reading, pack_Bf, pack_B, pack_error.
  destruct (pack_uint_cases 1 (sensor_type r)) as [E|E]; rewrite E;
    [rewrite bind_ret | right; eexists; split; [left|]; reflexivity].
  destruct (pack_f_cases (value r)) as [E1|[E1|E1]]; rewrite E1;
    [rewrite !bind_ret; left; reflexivity
    | right; eexists; split; [right|]; reflexivity
    | right; eexists; split; [left|]; reflexivity].
Qed.

Lemma encode_step_iterations r data : iterations (encode_step r data) = 0.
Proof.
  destruct (encode_step_cases r data) as [E|(e & _ & E)]; rewrite E; reflexivity.
Qed.

(** The loop raises nothing but what [struct.pack] raises. *)
Lemma encode_loop_error rs : forall data e,
  outcome (for_each rs encode_step data) = Raise e -> pack_error e.
Proof.
  induction rs as [|r rs IH]; intros data e H; [discriminate H|].
  destruct (encode_step_cases r data) as [E|(e' & He' & E)].
  - rewrite (for_each_cons_ok _ _ _ _ _ E) in H. exact (IH _ _ H).
  - rewrite (for_each_cons_raise _ _ _ _ _ E) in H. injection H as <-. exact He'.
Qed.

(** The loop over readings that all fit appends their wire forms in order. *)
Lemma encode_loop_fits rs : forall data,
  Forall reading_in_range rs ->
  for_each rs encode_step data =
  (List.length rs, Ok (data ++ concat (map reading_bytes rs))).
Proof.
  induction rs as [|r rs IH]; intros data H.
  - cbn. rewrite app_nil_r. reflexivity.
  - inversion H as [|? ? Hr Hrs]; subst.
    rewrite (for_each_cons_ok _ _ _ _ _ (encode_step_fits r data Hr)).
    rewrite (IH _ Hrs). cbn [fst snd map concat List.length].
    rewrite <- app_assoc. reflexivity.
Qed.

(** Whenever the loop completes, it has appended 5 bytes per reading. *)
Lemma encode_loop_length rs : forall data out,
  outcome (for_each rs encode_step data) = Ok out ->
  List.length out = List.length data + READING_SIZE * List.length rs.
Proof.
  induction rs as [|r rs IH]; intros data out H.
  - cbn in H. injection H as <-. cbn. lia.
  - destruct (encode_step_cases r data) as [E|(e & _ & E)].
    + rewrite (for_each_cons_ok _ _ _ _ _ E) in H. cbn [outcome snd] in H.
      apply IH in H. rewrite H, length_app, reading_bytes_length.
      cbn [List.length]. unfold READING_SIZE. lia.
    + rewrite (for_each_cons_raise _ _ _ _ _ E) in H. discriminate H.
Qed.

Lemma encode_loop_iterations rs data :
  iterations (for_each rs encode_step data) <= List.length rs.
Proof. apply for_each_iterations. apply encode_step_iterations. Qed.

End EncoderFacts.

(** ** The decoder *)

Section DecoderFacts.

Import Struct StructFacts.

Lemma decode_header_short data :
  List.length data < HEADER_SIZE -> decode_header data = raise HeaderTooShort.
Proof.
  intros H. unfold decode_header. apply Nat.ltb_lt in H. rewrite H. reflexivity.
Qed.

Lemma decode_header_long data :
  HEADER_SIZE <= List.length data ->
  decode_header data =
  ret (field 0 1 data, field 1 1 data, field 2 2 data, field 4 4 data,
       field 8 4 data).
Proof.
  intros H. unfold decode_header, HEADER_SIZE in *.
  apply Nat.ltb_ge in H. rewrite H. unfold unpack_BBHII.
  apply Nat.ltb_ge in H.
  rewrite slice_length, Nat.sub_0_r, Nat.sub_0_r, Nat.min_l by exact H.
  cbn [Nat.eqb]. unfold slice. cbn [skipn Nat.sub].
  rewrite !field_firstn by (cbn; lia). reflexivity.
Qed.

(** Decoding the 5-byte window at [off]: a reading when the buffer reaches
    [off + 5], the refusal of [struct.unpack] otherwise. *)
Lemma decode_step_inside data x off acc :
  off + READING_SIZE <= List.length data ->
  decode_step data x (off, acc) =
  ret (off + READING_SIZE,
       acc ++ [mkSensorReading (field off 1 data) (widen (field (off + 1) 4 data))]).
Proof.
  intros H. unfold decode_step, decode_reading, unpack_Bf, READING_SIZE in *.
  rewrite slice_length, slice_length.
  replace (Nat.min (5 - 0) (Nat.min (off + 5 - off) (List.length data - off) - 0))
    with 5 by lia.
  cbn [Nat.eqb]. rewrite bind_ret.
  rewrite !field_slice by lia. rewrite Nat.add_0_r. reflexivity.
Qed.

Lemma decode_step_outside data x off acc :
  List.length data < off + READING_SIZE ->
  decode_step data x (off, acc) = raise (struct_error (BufferSize 5)).
Proof.
  intros H. unfold decode_step, decode_reading, unpack_Bf, READING_SIZE in *.
  rewrite slice_length, slice_length.
  destruct (Nat.eqb_spec
    (Nat.min (5 - 0) (Nat.min (off + 5 - off) (List.length data - off) - 0)) 5)
    as [E|E]; [lia|]. reflexivity.
Qed.

Lemma decode_step_iterations data x st : iterations (decode_step data x st) = 0.
Proof.
  destruct st as [off acc].
  destruct (Nat.le_gt_cases (off + READING_SIZE) (List.length data)) as [H|H].
  - rewrite decode_step_inside by exact H. reflexivity.
  - rewrite decode_step_outside by exact H. reflexivity.
Qed.

(** When the buffer holds all the entries, the loop reads them in order. *)
Lemma decode_loop_inside data xs : forall off acc,
  off + READING_SIZE * List.length xs <= List.length data ->
  for_each xs (decode_step data) (off, acc) =
  (List.length xs,
   Ok (off + READING_SIZE * List.length xs,
       acc ++ readings_at data off (List.length xs))).
Proof.
  induction xs as [|x xs IH]; intros off acc H.
  - cbn. rewrite app_nil_r, Nat.add_0_r. reflexivity.
  - cbn [List.length] in H.
    rewrite (for_each_cons_ok _ _ _ _ _ (decode_step_inside data x off acc ltac:(unfold READING_SIZE in *; lia))).
    rewrite IH by (unfold READING_SIZE in *; lia).
    cbn [fst snd List.length readings_at]. rewrite <- app_assoc. cbn [app].
    replace (off + READING_SIZE + READING_SIZE * List.length xs)
      with (off + READING_SIZE * S (List.length xs))
      by (unfold READING_SIZE; lia).
    reflexivity.
Qed.

(** When it does not, the loop stops at the first entry that is cut. *)
Lemma decode_loop_outside data xs : forall off acc,
  off <= List.length data ->
  List.length data < off + READING_SIZE * List.length xs ->
  exists k, 1 <= k <= List.length xs /\
    for_each xs (decode_step data) (off, acc) =
    (k, Raise (struct_error (BufferSize 5))).
Proof.
  induction xs as [|x xs IH]; intros off acc Hoff H.
  - cbn [List.length] in H. lia.
  - cbn [List.length] in *.
    destruct (Nat.le_gt_cases (off + READING_SIZE) (List.length data)) as [Hin|Hout].
    + rewrite (for_each_cons_ok _ _ _ _ _ (decode_step_inside data x off acc Hin)).
      destruct (IH (off + READING_SIZE)
                   (acc ++ [mkSensorReading (field off 1 data) (widen (field (off + 1) 4 data))]))
        as (k & Hk & E); [unfold READING_SIZE in *; lia ..|].
      exists (S k). rewrite E. split; [lia|reflexivity].
    + rewrite (for_each_cons_raise _ _ _ _ _ (decode_step_outside data x off acc Hout)).
      exists 1. split; [lia|reflexivity].
Qed.

Lemma range_length n : List.length (range n) = Z.to_nat n.
Proof. unfold range. rewrite length_map, length_seq. reflexivity. Qed.

End DecoderFacts.

(** ** What [decode_packet] returns, by the length of the buffer *)

Section DecodePacketFacts.

Import Struct StructFacts.

Lemma decode_packet_short data :
  List.length data < HEADER_SIZE -> decode_packet data = raise HeaderTooShort.
Proof.
  intros H. unfold decode_packet. rewrite decode_header_short by exact H.
  reflexivity.
Qed.

Lemma decode_packet_header_only data :
  List.length data = HEADER_SIZE -> decode_packet data = ret (packet_at data []).
Proof.
  intros H. unfold decode_packet.
  rewrite decode_header_long by (rewrite H; apply Nat.le_refl).
  rewrite bind_ret. rewrite H, Nat.ltb_irrefl, bind_ret. reflexivity.
Qed.

(** The count byte of a buffer longer than the header. *)
Lemma unpack_count data :
  HEADER_SIZE < List.length data ->
  unpack_B (slice HEADER_SIZE (HEADER_SIZE + 1) data) =
  ret (field HEADER_SIZE 1 data).
Proof.
  intros H. unfold unpack_B, HEADER_SIZE in *. rewrite slice_length.
  replace (Nat.min (12 + 1 - 12) (List.length data - 12)) with 1 by lia.
  cbn [Nat.eqb]. rewrite field_slice by lia. reflexivity.
Qed.

Lemma range_declared_count data :
  List.length (range (field HEADER_SIZE 1 data)) = declared_count data.
Proof. apply range_length. Qed.

Lemma decode_packet_inside data :
  HEADER_SIZE < List.length data ->
  HEADER_SIZE + 1 + READING_SIZE * declared_count data <= List.length data ->
  decode_packet data =
  (declared_count data,
   Ok (packet_at data (readings_at data (HEADER_SIZE + 1) (declared_count data)))).
Proof.
  intros Hlen Hfit. unfold decode_packet.
  rewrite decode_header_long by (apply Nat.lt_le_incl, Hlen).
  rewrite bind_ret. apply Nat.ltb_lt in Hlen as Hb. rewrite Hb.
  rewrite unpack_count by exact Hlen. rewrite bind_ret.
  rewrite decode_loop_inside by (rewrite range_declared_count; exact Hfit).
  rewrite range_declared_count. cbn [bind ret snd app].
  rewrite !Nat.add_0_r. reflexivity.
Qed.

Lemma decode_packet_outside data :
  HEADER_SIZE < List.length data ->
  List.length data < HEADER_SIZE + 1 + READING_SIZE * declared_count data ->
  exists k, 1 <= k <= declared_count data /\
    decode_packet data = (k, Raise (struct_error (BufferSize 5))).
Proof.
  intros Hlen Hcut. unfold decode_packet.
  rewrite decode_header_long by (apply Nat.lt_le_incl, Hlen).
  rewrite bind_ret. apply Nat.ltb_lt in Hlen as Hb. rewrite Hb.
  rewrite unpack_count by exact Hlen. rewrite bind_ret.
  destruct (decode_loop_outside data (range (field HEADER_SIZE 1 data))
              (HEADER_SIZE + 1) [])
    as (k & Hk & E).
  - unfold HEADER_SIZE in *. lia.
  - rewrite range_declared_count. exact Hcut.
  - rewrite range_declared_count in Hk. exists k. split; [exact Hk|].
    rewrite E. cbn [bind ret snd]. reflexivity.
Qed.

Lemma declared_count_byte data : declared_count data <= 255.
Proof.
  unfold declared_count. pose proof (field_byte_range HEADER_SIZE data). lia.
Qed.

(** Entries read from a prefix that contains them. *)
Lemma readings_at_firstn data k n : forall off,
  off + READING_SIZE * n <= k ->
  readings_at (firstn k data) off n = readings_at data off n.
Proof.
  induction n as [|n IH]; intros off H; [reflexivity|].
  cbn [readings_at]. unfold READING_SIZE in *.
  rewrite !field_firstn by lia. rewrite IH by lia. reflexivity.
Qed.

Lemma readings_at_length data n : forall off,
  List.length (readings_at data off n) = n.
Proof. induction n as [|n IH]; intros off; cbn; [|rewrite IH]; reflexivity. Qed.

End DecodePacketFacts.

(** ** What [encode_packet] returns *)

Section EncodePacketFacts.

Import Struct StructFacts.

Lemma bind_ret_r {A} (m : M A) : bind m ret = m.
Proof. destruct m as [n [a|e]]; cbn; [rewrite Nat.add_0_r|]; reflexivity. Qed.

Lemma encode_packet_other p :
  msg_type p <> MSG_DATA ->
  encode_packet p =
  encode_header (version p) (msg_type p) (device_id p) (seq_num p) (timestamp p).
Proof.
  intros H. unfold encode_packet. apply Z.eqb_neq in H. rewrite H.
  apply bind_ret_r.
Qed.

Lemma header_fits p :
  header_in_range p ->
  encode_header (version p) (msg_type p) (device_id p) (seq_num p) (timestamp p)
  = ret (header_bytes (version p) (msg_type p) (device_id p) (seq_num p)
                      (timestamp p)).
Proof.
  intros (Hv & Hm & Hd & Hs & Ht). apply encode_header_fits; assumption.
Qed.

Lemma encode_packet_large p :
  msg_type p = MSG_DATA -> header_in_range p ->
  PAYLOAD_LIMIT < HEADER_SIZE + 1 + List.length (readings p) * READING_SIZE ->
  encode_packet p = raise PayloadTooLarge.
Proof.
  intros Hm Hh Hbig. unfold encode_packet.
  rewrite (header_fits p Hh), bind_ret.
  apply Z.eqb_eq in Hm. rewrite Hm. apply Nat.ltb_lt in Hbig. rewrite Hbig.
  reflexivity.
Qed.

Lemma encode_packet_fits p :
  msg_type p = MSG_DATA -> header_in_range p ->
  HEADER_SIZE + 1 + List.length (readings p) * READING_SIZE <= PAYLOAD_LIMIT ->
  Forall reading_in_range (readings p) ->
  encode_packet p = (List.length (readings p), Ok (data_frame p)).
Proof.
  intros Hm Hh Hsmall Hr. unfold encode_packet.
  rewrite (header_fits p Hh), bind_ret.
  apply Z.eqb_eq in Hm. rewrite Hm. apply Nat.ltb_ge in Hsmall as Hb. rewrite Hb.
  unfold pack_B. rewrite pack_uint_fits, bind_ret.
  - rewrite (encode_loop_fits _ _ Hr). unfold data_frame.
    rewrite <- !app_assoc. reflexivity.
  - unfold HEADER_SIZE, READING_SIZE, PAYLOAD_LIMIT in Hsmall.
    change (256 ^ Z.of_nat 1)%Z with 256%Z. lia.
Qed.

Lemma data_frame_length p :
  List.length (data_frame p) =
  HEADER_SIZE + 1 + READING_SIZE * List.length (readings p).
Proof.
  unfold data_frame. rewrite !length_app, header_bytes_length, be_bytes_length.
  assert (E : forall rs, List.length (concat (map reading_bytes rs)) =
                         READING_SIZE * List.length rs).
  { induction rs as [|r rs IH]; [reflexivity|].
    cbn [map concat List.length]. rewrite length_app, reading_bytes_length, IH.
    unfold READING_SIZE. lia. }
  rewrite E. lia.
Qed.

(** Reading back a header that was packed from fields that fit. *)
Lemma packet_at_header v m d s t rest rs :
  fits 1 v -> fits 1 m -> fits 2 d -> fits 4 s -> fits 4 t ->
  packet_at (header_bytes v m d s t ++ rest) rs =
  mkTelemetryPacket v m d s t rs.
Proof.
  intros Hv Hm Hd Hs Ht. unfold packet_at, header_bytes.
  rewrite <- !app_assoc.
  pose proof (field_packed [] 1 v
    (be_bytes 1 m ++ be_bytes 2 d ++ be_bytes 4 s ++ be_bytes 4 t ++ rest) Hv) as E0.
  pose proof (field_packed (be_bytes 1 v) 1 m
    (be_bytes 2 d ++ be_bytes 4 s ++ be_bytes 4 t ++ rest) Hm) as E1.
  pose proof (field_packed (be_bytes 1 v ++ be_bytes 1 m) 2 d
    (be_bytes 4 s ++ be_bytes 4 t ++ rest) Hd) as E2.
  pose proof (field_packed (be_bytes 1 v ++ be_bytes 1 m ++ be_bytes 2 d) 4 s
    (be_bytes 4 t ++ rest) Hs) as E3.
  pose proof (field_packed
    (be_bytes 1 v ++ be_bytes 1 m ++ be_bytes 2 d ++ be_bytes 4 s) 4 t rest Ht)
    as E4.
  rewrite be_bytes_length in E1.
  rewrite !length_app, !be_bytes_length, <- !app_assoc in E2.
  rewrite !length_app, !be_bytes_length, <- !app_assoc in E3.
  rewrite !length_app, !be_bytes_length, <- !app_assoc in E4.
  cbn [List.length app Nat.add] in E0, E1, E2, E3, E4.
  rewrite E0, E1, E2, E3, E4. reflexivity.
Qed.

(** Reading back entries that were packed from readings that fit: each
    value comes back rounded to single precision. *)
Lemma readings_at_packed rs : forall pre tail,
  Forall reading_in_range rs ->
  readings_at (pre ++ concat (map reading_bytes rs) ++ tail)
              (List.length pre) (List.length rs) = map rounded rs.
Proof.
  induction rs as [|[st v] rs IH]; intros pre tail H; [reflexivity|].
  inversion H as [|? ? [Ht Hv] Hrs]; subst. cbn [sensor_type value] in Ht, Hv.
  cbn [map concat List.length readings_at].
  change (reading_bytes (mkSensorReading st v))
    with (be_bytes 1 st ++ be_bytes 4 (single_bits v)).
  rewrite <- !app_assoc.
  rewrite (field_packed pre 1 st _ Ht).
  pose proof (field_packed (pre ++ be_bytes 1 st) 4 (single_bits v)
    (concat (map reading_bytes rs) ++ tail) (single_bits_range v Hv)) as E.
  rewrite length_app, be_bytes_length, <- app_assoc in E. rewrite E.
  f_equal.
  pose proof (IH (pre ++ be_bytes 1 st ++ be_bytes 4 (single_bits v)) tail Hrs)
    as E'.
  rewrite !length_app, !be_bytes_length, <- !app_assoc in E'.
  unfold READING_SIZE. replace (List.length pre + 5) with (List.length pre + (1 + 4)) by lia.
  exact E'.
Qed.

Lemma declared_count_frame p :
  List.length (readings p) < 256 ->
  declared_count (data_frame p) = List.length (readings p).
Proof.
  intros H. unfold declared_count, data_frame.
  pose proof (field_packed
    (header_bytes (version p) (msg_type p) (device_id p) (seq_num p) (timestamp p))
    1 (Z.of_nat (List.length (readings p)))
    (concat (map reading_bytes (readings p)))) as E.
  rewrite header_bytes_length in E. rewrite E; [apply Nat2Z.id|].
  change (256 ^ Z.of_nat 1)%Z with 256%Z. lia.
Qed.

End EncodePacketFacts.

(** The four ways a call of [encode_packet] can go. *)
Lemma encode_packet_cases p :
  let header := header_bytes (version p) (msg_type p) (device_id p) (seq_num p)
                             (timestamp p) in
  let size := HEADER_SIZE + 1 + List.length (readings p) * READING_SIZE in
  encode_packet p = raise (struct_error ArgOutOfRange)
  \/ (msg_type p <> MSG_DATA /\ encode_packet p = ret header)
  \/ (msg_type p = MSG_DATA /\ PAYLOAD_LIMIT < size /\
      encode_packet p = raise PayloadTooLarge)
  \/ (msg_type p = MSG_DATA /\ size <= PAYLOAD_LIMIT /\
      encode_packet p =
      for_each (readings p) encode_step
        (header ++ Struct.be_bytes 1 (Z.of_nat (List.length (readings p))))).
Proof.
  intros header size. unfold encode_packet.
  destruct (encode_header_cases (version p) (msg_type p) (device_id p)
              (seq_num p) (timestamp p)) as [E|E]; rewrite E;
    [rewrite bind_ret | left; reflexivity].
  right. destruct (Z.eqb_spec (msg_type p) MSG_DATA) as [Hm|Hm].
  - right. fold size. destruct (Nat.ltb_spec PAYLOAD_LIMIT size) as [Hs|Hs].
    + left. repeat split; assumption.
    + right. repeat split; try assumption.
      unfold Struct.pack_B. rewrite StructFacts.pack_uint_fits, bind_ret; [reflexivity|].
      unfold size, HEADER_SIZE, READING_SIZE, PAYLOAD_LIMIT in Hs.
      change (256 ^ Z.of_nat 1)%Z with 256%Z. lia.
  - left. split; [assumption|reflexivity].
Qed.

(** The frame of the module's self-test packet. *)
Example encode_selftest :
  encode_packet sample_selftest =
  (3, Ok [x01; x01; x03; xe9; x00; x00; x00; x01; x49; x96; x02; xd2; x03;
          x01; x41; xc8; x00; x00; x02; x42; x72; x00; x00;
          x03; x40; x53; x33; x33]).
Proof. vm_compute. reflexivity. Qed.

(** * The claims *)

(** The frame of a packet in range decodes to the packet with its values
    rounded to single precision. *)
Lemma decode_data_frame p :
  header_in_range p -> Forall reading_in_range (readings p) ->
  List.length (readings p) < 256 ->
  decode_packet (data_frame p) =
  (List.length (readings p), Ok (with_readings p (map rounded (readings p)))).
Proof.
  intros (Hv & Hm & Hd & Hs & Ht) Hr Hn.
  pose proof (data_frame_length p) as L.
  pose proof (declared_count_frame p Hn) as C.
  rewrite decode_packet_inside;
    [ | rewrite L; unfold HEADER_SIZE; lia | rewrite L, C; apply Nat.le_refl ].
  rewrite C. do 2 f_equal.
  pose proof (readings_at_packed (readings p)
    (header_bytes (version p) (msg_type p) (device_id p) (seq_num p) (timestamp p)
     ++ Struct.be_bytes 1 (Z.of_nat (List.length (readings p)))) [] Hr) as R.
  rewrite length_app, header_bytes_length, StructFacts.be_bytes_length in R.
  rewrite app_nil_r, <- app_assoc in R.
  unfold data_frame at 2. rewrite R.
  unfold data_frame. rewrite packet_at_header by assumption.
  reflexivity.
Qed.

(** Single-precision values that are not signalling NaNs are taken by the
    format and come back as they were. *)
Lemma rounded_single r :
  single_reading r -> quiet_reading r -> reading_in_range r /\ rounded r = r.
Proof.
  intros [Ht (s & Hs & E)] Q. unfold quiet_reading in Q. rewrite E in Q.
  rewrite (signalling_embed s Hs) in Q.
  destruct (StructFacts.widen_single_bits_embed s Hs Q) as [P W].
  rewrite <- E in P, W. split; [split; assumption|].
  unfold rounded. rewrite W. destruct r; reflexivity.
Qed.

Lemma rounded_singles rs :
  Forall single_reading rs -> Forall quiet_reading rs ->
  Forall reading_in_range rs /\ map rounded rs = rs.
Proof.
  induction rs as [|r rs IH]; intros Hs Hq; [split; [constructor|reflexivity]|].
  inversion Hs as [|? ? Hs1 Hs2]; inversion Hq as [|? ? Hq1 Hq2]; subst.
  destruct (rounded_single r Hs1 Hq1) as [R1 R2].
  destruct (IH Hs2 Hq2) as [I1 I2].
  split; [constructor; assumption|]. cbn [map]. rewrite R2, I2. reflexivity.
Qed.

(** C1, as stated, fails on signalling NaNs: the packet [sample_snan] meets
    every condition of the claim (a DATA packet, one reading, all fields of
    the declared types, the value a single-precision signalling NaN), but the
    packet decoded from its frame holds another value, the quiet NaN with the
    same payload. *)
Lemma C1_signalling_nan_comes_back_quiet :
  msg_type sample_snan = MSG_DATA /\
  List.length (readings sample_snan) <= 37 /\
  header_in_range sample_snan /\
  Forall single_reading (readings sample_snan) /\
  exists frame q,
    outcome (encode_packet sample_snan) = Ok frame /\
    outcome (decode_packet frame) = Ok q /\
    readings q =
      [mkSensorReading SENSOR_TEMP (mkFloat64 false 2047 0x8000020000000)] /\
    q <> sample_snan.
Proof.
  split; [reflexivity|]. split; [cbn; lia|].
  split; [unfold header_in_range, fits, sample_snan, VERSION, MSG_DATA; cbn; lia|].
  split.
  - constructor; [|constructor]. split.
    + unfold fits, sample_snan, SENSOR_TEMP. cbn. lia.
    + exists 0x7f800001%Z. split; [lia|]. vm_compute. reflexivity.
  - eexists. eexists. split; [vm_compute; reflexivity|].
    split; [vm_compute; reflexivity|]. split; [reflexivity|]. discriminate.
Qed.

(** C1 (round-trip identity), amended: a DATA packet with at most 37
    readings whose header fields fit their declared widths, whose sensor
    types fit 8 bits and whose values are single-precision floats other than
    signalling NaNs is encoded to a frame, and decoding that frame returns
    the very same packet: the five header fields, and the readings in the
    same order, in the same number and with bit-identical values. *)
Theorem C1_data_roundtrip (p : TelemetryPacket) :
  msg_type p = MSG_DATA ->
  List.length (readings p) <= 37 ->
  header_in_range p ->
  Forall single_reading (readings p) ->
  Forall quiet_reading (readings p) ->
  exists frame,
    outcome (encode_packet p) = Ok frame /\
    outcome (decode_packet frame) = Ok p.
Proof.
  intros Hm Hn Hh Hs Hq. exists (data_frame p).
  destruct (rounded_singles (readings p) Hs Hq) as [Hr E].
  rewrite encode_packet_fits;
    [ | assumption | assumption
      | unfold HEADER_SIZE, READING_SIZE, PAYLOAD_LIMIT; lia | assumption ].
  split; [reflexivity|].
  rewrite decode_data_frame by (try assumption; lia).
  cbn [outcome snd]. rewrite E. destruct p; reflexivity.
Qed.

Lemma C1_data_roundtrip_witness :
  exists frame,
    outcome (encode_packet sample_data) = Ok frame /\
    outcome (decode_packet frame) = Ok sample_data.
Proof.
  apply (C1_data_roundtrip sample_data).
  - reflexivity.
  - cbn. lia.
  - unfold header_in_range, fits, sample_data, VERSION, MSG_DATA. cbn. lia.
  - unfold sample_data, SENSOR_TEMP, SENSOR_HUM, SENSOR_VOLT.
    repeat constructor; try (unfold fits; cbn; lia).
    + exists 0x41C80000%Z. split; [lia|]. vm_compute. reflexivity.
    + exists 0x42720000%Z. split; [lia|]. vm_compute. reflexivity.
    + exists 0x40533333%Z. split; [lia|]. vm_compute. reflexivity.
  - repeat constructor.
Defined.

(** C2 (frame length law): whenever [encode_packet] returns a frame, the
    frame has 12 bytes if the packet is not a DATA packet and
    [13 + 5 * len(readings)] bytes if it is. *)
Theorem C2_frame_length (p : TelemetryPacket) (frame : bytes) :
  outcome (encode_packet p) = Ok frame ->
  (msg_type p <> MSG_DATA -> List.length frame = 12) /\
  (msg_type p = MSG_DATA ->
   List.length frame = 13 + 5 * List.length (readings p)).
Proof.
  intros H.
  destruct (encode_packet_cases p) as [E|[(Hm & E)|[(Hm & _ & E)|(Hm & _ & E)]]];
    rewrite E in H; try discriminate H.
  - injection H as <-. split; [intros _|intros Hd; contradiction].
    apply header_bytes_length.
  - split; [intros Hd; contradiction|intros _].
    apply encode_loop_length in H. rewrite H, length_app, header_bytes_length.
    rewrite StructFacts.be_bytes_length. reflexivity.
Qed.

Lemma C2_frame_length_witness :
  exists frame,
    outcome (encode_packet sample_data) = Ok frame /\
    List.length frame = 13 + 5 * List.length (readings sample_data).
Proof.
  exists (data_frame sample_data). split; [reflexivity|].
  apply (C2_frame_length sample_data (data_frame sample_data)); reflexivity.
Defined.

(** Side conditions on the sample packets. *)
Ltac sample_in_range :=
  unfold header_in_range, reading_in_range, fits, sample_data, sample_init,
    sample_full, VERSION, MSG_DATA, MSG_INIT, SENSOR_TEMP, SENSOR_HUM,
    SENSOR_VOLT;
  cbn; lia.

Lemma sample_full_readings n :
  Forall reading_in_range (readings (sample_full n)).
Proof.
  apply Forall_forall. intros r Hr. apply repeat_spec in Hr. subst r.
  split; [unfold fits, SENSOR_VOLT; cbn; lia|].
  split; [unfold binary64, f3_3; cbn; lia|]. vm_compute. discriminate.
Qed.

(** C3 (size ceiling): on a DATA packet whose header fields fit,
    [encode_packet] raises the payload-limit error exactly when
    [12 + 1 + 5 * len(readings) > 200], that is from 38 readings on, and it
    raises it before the loop has appended anything; with 37 readings that fit
    it returns a frame, and that frame has 198 bytes. *)
Theorem C3_size_ceiling (p : TelemetryPacket) :
  msg_type p = MSG_DATA ->
  header_in_range p ->
  (outcome (encode_packet p) = Raise PayloadTooLarge <->
   PAYLOAD_LIMIT < HEADER_SIZE + 1 + READING_SIZE * List.length (readings p)) /\
  (outcome (encode_packet p) = Raise PayloadTooLarge <->
   38 <= List.length (readings p)) /\
  (outcome (encode_packet p) = Raise PayloadTooLarge ->
   encode_packet p = raise PayloadTooLarge) /\
  (List.length (readings p) = 38 ->
   outcome (encode_packet p) = Raise PayloadTooLarge) /\
  (List.length (readings p) = 37 ->
   Forall reading_in_range (readings p) ->
   exists frame,
     outcome (encode_packet p) = Ok frame /\ List.length frame = 198).
Proof.
  intros Hm Hh.
  assert (Big : PAYLOAD_LIMIT <
                HEADER_SIZE + 1 + READING_SIZE * List.length (readings p) ->
                encode_packet p = raise PayloadTooLarge).
  { intros H. apply encode_packet_large; try assumption.
    unfold READING_SIZE in *. lia. }
  assert (Small : outcome (encode_packet p) = Raise PayloadTooLarge ->
                  PAYLOAD_LIMIT <
                  HEADER_SIZE + 1 + READING_SIZE * List.length (readings p)).
  { intros H.
    destruct (encode_packet_cases p) as [E|[(Hd & E)|[(_ & Hs & E)|(_ & _ & E)]]];
      rewrite E in H.
    - discriminate H.
    - contradiction.
    - unfold READING_SIZE in *. lia.
    - apply encode_loop_error in H. destruct H as [H|H]; discriminate H. }
  repeat split.
  - exact Small.
  - intros H. rewrite (Big H). reflexivity.
  - intros H. apply Small in H. unfold PAYLOAD_LIMIT, HEADER_SIZE, READING_SIZE in H. lia.
  - intros H. rewrite Big; [reflexivity|].
    unfold PAYLOAD_LIMIT, HEADER_SIZE, READING_SIZE. lia.
  - intros H. apply Big, Small, H.
  - intros H. rewrite Big; [reflexivity|].
    rewrite H. unfold PAYLOAD_LIMIT, HEADER_SIZE, READING_SIZE. lia.
  - intros H Hr. exists (data_frame p). rewrite encode_packet_fits; try assumption.
    + split; [reflexivity|]. rewrite data_frame_length, H. reflexivity.
    + rewrite H. unfold PAYLOAD_LIMIT, HEADER_SIZE, READING_SIZE. lia.
Qed.

Lemma C3_size_ceiling_witness :
  outcome (encode_packet (sample_full 38)) = Raise PayloadTooLarge /\
  exists frame,
    outcome (encode_packet (sample_full 37)) = Ok frame /\
    List.length frame = 198.
Proof.
  split.
  - apply (C3_size_ceiling (sample_full 38)); [reflexivity | sample_in_range | ].
    reflexivity.
  - apply (C3_size_ceiling (sample_full 37)); [reflexivity | sample_in_range | | ].
    + reflexivity.
    + apply sample_full_readings.
Defined.

(** C3, as stated, fails on the size it gives for 37 readings: the frame of a
    DATA packet with 37 readings is accepted, but no frame of 200 bytes comes
    out of it. *)
Lemma C3_frame_of_37_is_not_200 :
  List.length (readings (sample_full 37)) = 37 /\
  ~ (exists frame,
       outcome (encode_packet (sample_full 37)) = Ok frame /\
       List.length frame = 200).
Proof.
  split; [reflexivity|]. intros (frame & E & L).
  rewrite encode_packet_fits in E;
    [ | reflexivity | sample_in_range | apply Nat.leb_le; reflexivity
      | apply sample_full_readings ].
  injection E as <-. rewrite data_frame_length in L. discriminate L.
Qed.

(** C4 (short-buffer rejection): on a buffer of fewer than 12 bytes both
    [decode_header] and [decode_packet] raise the header's too-short error;
    nothing is returned. *)
Theorem C4_short_buffer (data : bytes) :
  List.length data < 12 ->
  outcome (decode_header data) = Raise HeaderTooShort /\
  outcome (decode_packet data) = Raise HeaderTooShort /\
  TooShort HeaderTooShort.
Proof.
  intros H. rewrite decode_header_short, decode_packet_short by exact H.
  repeat split. left. reflexivity.
Qed.

Lemma C4_short_buffer_witness :
  outcome (decode_packet (firstn 11 sample_header)) = Raise HeaderTooShort.
Proof.
  apply (C4_short_buffer (firstn 11 sample_header)). cbn. lia.
Defined.

(** C5, as stated, fails for header fields outside their widths: an INIT
    packet whose version is 256 is not encoded, [struct.pack] raises
    [struct.error] on the header. *)
Lemma C5_out_of_range_header_fails :
  msg_type (mkTelemetryPacket 256 MSG_INIT 1001 0 1234567890 []) <> MSG_DATA /\
  encode_packet (mkTelemetryPacket 256 MSG_INIT 1001 0 1234567890 []) =
  raise (struct_error ArgOutOfRange) /\
  ~ (exists frame,
       outcome (encode_packet
                  (mkTelemetryPacket 256 MSG_INIT 1001 0 1234567890 []))
       = Ok frame).
Proof.
  split; [discriminate|]. split; [reflexivity|].
  intros (frame & E). discriminate E.
Qed.

(** C5 (non-DATA round trip), amended: for a packet that is not a DATA packet and whose
    header fields fit, whatever its readings are, [encode_packet] returns
    exactly the 12-byte header and decoding it returns the header fields with
    no readings.  The readings play no part in the encoding at all. *)
Theorem C5_non_data_roundtrip (p : TelemetryPacket) :
  msg_type p <> MSG_DATA ->
  header_in_range p ->
  let header := header_bytes (version p) (msg_type p) (device_id p) (seq_num p)
                             (timestamp p) in
  encode_packet p = ret header /\
  List.length header = 12 /\
  outcome (decode_packet header) =
  Ok (mkTelemetryPacket (version p) (msg_type p) (device_id p) (seq_num p)
        (timestamp p) []) /\
  (forall rs,
     encode_packet (mkTelemetryPacket (version p) (msg_type p) (device_id p)
                      (seq_num p) (timestamp p) rs) = encode_packet p).
Proof.
  intros Hm Hh header.
  assert (E : encode_packet p = ret header).
  { rewrite encode_packet_other by exact Hm. apply header_fits, Hh. }
  split; [exact E|]. split; [apply header_bytes_length|]. split.
  - rewrite decode_packet_header_only by apply header_bytes_length.
    cbn [outcome ret snd]. f_equal.
    destruct Hh as (Hv & Hmt & Hd & Hs & Ht).
    rewrite <- (app_nil_r header). unfold header.
    apply packet_at_header; assumption.
  - intros rs. rewrite !encode_packet_other by exact Hm. reflexivity.
Qed.

Lemma C5_non_data_roundtrip_witness :
  readings sample_init <> [] /\
  encode_packet sample_init = ret sample_header /\
  readings_outcome (decode_packet sample_header) = Ok [].
Proof.
  split; [discriminate|].
  destruct (C5_non_data_roundtrip sample_init) as (E & _ & D & _).
  - discriminate.
  - sample_in_range.
  - split; [exact E|]. unfold readings_outcome.
    change sample_header with
      (header_bytes (version sample_init) (msg_type sample_init)
         (device_id sample_init) (seq_num sample_init) (timestamp sample_init)).
    rewrite D. reflexivity.
Defined.

(** ** The reading section depends on the bytes after the header only *)

Section SectionFacts.

Import Struct StructFacts.

Lemma slice_app_skip {A} (pre l : list A) lo hi :
  slice (List.length pre + lo) (List.length pre + hi) (pre ++ l) = slice lo hi l.
Proof.
  unfold slice. rewrite skipn_app, skipn_all2 by lia.
  replace (List.length pre + lo - List.length pre) with lo by lia.
  replace (List.length pre + hi - (List.length pre + lo)) with (hi - lo) by lia.
  reflexivity.
Qed.

Lemma field_app_skip pre l lo n :
  field (List.length pre + lo) n (pre ++ l) = field lo n l.
Proof.
  unfold field. rewrite <- Nat.add_assoc, slice_app_skip. reflexivity.
Qed.

Lemma readings_at_app_skip pre l n : forall off,
  readings_at (pre ++ l) (List.length pre + off) n = readings_at l off n.
Proof.
  induction n as [|n IH]; intros off; [reflexivity|].
  cbn [readings_at]. rewrite <- !Nat.add_assoc, !field_app_skip, IH.
  reflexivity.
Qed.

(** The readings of a decode are those of the bytes after the header. *)
Lemma decode_packet_section header tail :
  List.length header = HEADER_SIZE ->
  readings_outcome (decode_packet (header ++ tail)) = parse_section tail.
Proof.
  intros L. destruct tail as [|b tail].
  - rewrite app_nil_r, decode_packet_header_only by exact L. reflexivity.
  - set (t := b :: tail).
    assert (Hlen : HEADER_SIZE < List.length (header ++ t))
      by (rewrite length_app, L; unfold t; cbn [List.length]; lia).
    assert (C : declared_count (header ++ t) = Z.to_nat (field 0 1 t)).
    { unfold declared_count. rewrite <- L, <- (Nat.add_0_r (List.length header)).
      rewrite field_app_skip. reflexivity. }
    unfold parse_section. fold t.
    destruct (Nat.leb_spec (1 + READING_SIZE * Z.to_nat (field 0 1 t))
                           (List.length t)) as [Hin|Hout].
    + rewrite decode_packet_inside;
        [ | exact Hlen | rewrite C, length_app, L; lia ].
      unfold readings_outcome. cbn [outcome snd packet_at readings].
      rewrite C, <- L, readings_at_app_skip. reflexivity.
    + destruct (decode_packet_outside (header ++ t)) as (k & _ & E);
        [ exact Hlen | rewrite C, length_app, L; lia | ].
      rewrite E. reflexivity.
Qed.

End SectionFacts.

(** C6 (header-only buffers): a buffer of exactly 12 bytes decodes to the
    packet of its header fields with no readings, whatever its [msg_type]
    byte is.  The length of the buffer, not the [msg_type] byte, decides
    whether a reading section is parsed: as soon as any bytes follow these
    same 12 bytes, the first of them is taken as the count and, when the
    entries it declares are all there, exactly that many readings are
    decoded from them; the readings (or the error) are those of the bytes
    after the header on their own, so two buffers that differ in their 12
    header bytes only (their [msg_type] included) give the same readings or
    the same error.  An INIT header followed by a count of 1 and one entry
    decodes to one reading. *)
Theorem C6_header_only (data : bytes) :
  List.length data = 12 ->
  decode_packet data = ret (packet_at data []) /\
  readings_outcome (decode_packet data) = Ok [] /\
  (forall tail,
     tail <> [] ->
     13 + 5 * declared_count (data ++ tail) <= List.length (data ++ tail) ->
     decode_packet (data ++ tail) =
     (declared_count (data ++ tail),
      Ok (packet_at (data ++ tail)
            (readings_at (data ++ tail) 13 (declared_count (data ++ tail)))))
     /\ List.length (readings_at (data ++ tail) 13
                       (declared_count (data ++ tail)))
        = Z.to_nat (Struct.field 0 1 tail)) /\
  (forall tail,
     readings_outcome (decode_packet (data ++ tail)) = parse_section tail) /\
  (forall header header' tail,
     List.length header = 12 -> List.length header' = 12 ->
     readings_outcome (decode_packet (header ++ tail)) =
     readings_outcome (decode_packet (header' ++ tail))) /\
  msg_type (packet_at sample_header []) = MSG_INIT /\
  readings_outcome
    (decode_packet (sample_header ++ [x01; x01; x41; xc8; x00; x00])) =
  Ok [mkSensorReading SENSOR_TEMP f25_0].
Proof.
  intros L. split; [apply decode_packet_header_only, L|]. split.
  { rewrite decode_packet_header_only by exact L. reflexivity. }
  split.
  { intros tail Ht Hfit.
    assert (Hlen : HEADER_SIZE < List.length (data ++ tail)).
    { rewrite length_app, L. unfold HEADER_SIZE.
      destruct tail; [contradiction|cbn [List.length]; lia]. }
    split; [apply decode_packet_inside; assumption|].
    rewrite readings_at_length. unfold declared_count.
    change HEADER_SIZE with (12 + 0). rewrite <- L.
    rewrite field_app_skip. reflexivity. }
  split.
  { intros tail. apply decode_packet_section, L. }
  split.
  { intros header header' tail H H'.
    rewrite !decode_packet_section by assumption. reflexivity. }
  split; vm_compute; reflexivity.
Qed.

Lemma C6_header_only_witness :
  decode_packet sample_header =
  ret (mkTelemetryPacket 1 0 1001 0 1234567890 []).
Proof.
  destruct (C6_header_only sample_header) as (E & _); [reflexivity|].
  rewrite E. reflexivity.
Defined.

(** C7 (truncated reading section): a buffer longer than the header whose
    length is below [13 + 5 * count], [count] being the byte at offset 12,
    is not decoded: the call raises, after at most [count] iterations, the
    short-buffer error of [struct.unpack] for a reading, and returns no
    packet. *)
Theorem C7_truncated_section (data : bytes) :
  12 < List.length data ->
  List.length data < 13 + 5 * declared_count data ->
  outcome (decode_packet data) = Raise (struct_error (BufferSize 5)) /\
  TooShort (struct_error (BufferSize 5)) /\
  1 <= iterations (decode_packet data) <= declared_count data.
Proof.
  intros Hlen Hcut.
  destruct (decode_packet_outside data Hlen Hcut) as (k & Hk & E).
  rewrite E. split; [reflexivity|]. split; [|exact Hk].
  right. exists 5. reflexivity.
Qed.

Lemma C7_truncated_section_witness :
  outcome (decode_packet (sample_header ++ [x02; x01; x41; xc8; x00; x00; x02]))
  = Raise (struct_error (BufferSize 5)).
Proof.
  apply (C7_truncated_section
           (sample_header ++ [x02; x01; x41; xc8; x00; x00; x02])).
  - cbn. lia.
  - vm_compute. lia.
Defined.

(** ** Iteration counts *)

Lemma decode_packet_iterations data :
  iterations (decode_packet data) <= declared_count data.
Proof.
  destruct (Nat.lt_trichotomy (List.length data) HEADER_SIZE) as [H|[H|H]].
  - rewrite decode_packet_short by exact H. apply Nat.le_0_l.
  - rewrite decode_packet_header_only by exact H. apply Nat.le_0_l.
  - destruct (Nat.le_gt_cases
                (HEADER_SIZE + 1 + READING_SIZE * declared_count data)
                (List.length data)) as [Hin|Hout].
    + rewrite decode_packet_inside by assumption. apply Nat.le_refl.
    + destruct (decode_packet_outside data H Hout) as (k & Hk & E).
      rewrite E. apply Hk.
Qed.

Lemma encode_packet_iterations p :
  iterations (encode_packet p) <= List.length (readings p) /\
  (iterations (encode_packet p) <> 0 ->
   HEADER_SIZE + 1 + List.length (readings p) * READING_SIZE <= PAYLOAD_LIMIT).
Proof.
  destruct (encode_packet_cases p) as [E|[(_ & E)|[(_ & _ & E)|(_ & Hs & E)]]];
    rewrite E; try (split; [apply Nat.le_0_l | intros N; exfalso; apply N; reflexivity]).
  split; [apply encode_loop_iterations | intros _; exact Hs].
Qed.

(** C8, as stated, fails for the decoder: a buffer of 203 bytes whose count
    byte is 38 makes [decode_packet] run 38 iterations. *)
Lemma C8_decode_runs_38_iterations :
  iterations (decode_packet (repeat x26 203)) = 38 /\
  ~ iterations (decode_packet (repeat x26 203)) <= 37.
Proof.
  assert (E : iterations (decode_packet (repeat x26 203)) = 38)
    by (vm_compute; reflexivity).
  split; [exact E|]. rewrite E. lia.
Qed.

(** C8 (iteration bounds), amended: every call returns; [decode_packet] runs
    at most as many iterations as the count byte says, hence at most 255,
    and [encode_packet] at most 37, on every packet.  The bound 255 is
    reached. *)
Theorem C8_iteration_bounds :
  (forall data,
     exists n r, decode_packet data = (n, r) /\
                 n <= declared_count data /\ n <= 255) /\
  (forall p,
     exists n r, encode_packet p = (n, r) /\
                 n <= List.length (readings p) /\ n <= 37) /\
  iterations (decode_packet (repeat xff 1288)) = 255.
Proof.
  split; [|split].
  - intros data. pose proof (decode_packet_iterations data) as H.
    pose proof (declared_count_byte data) as B.
    destruct (decode_packet data) as [n r]. exists n, r.
    cbn [iterations fst] in H. repeat split; lia.
  - intros p. pose proof (encode_packet_iterations p) as [H1 H2].
    destruct (encode_packet p) as [n r]. exists n, r.
    cbn [iterations fst] in H1, H2. repeat split; [exact H1|].
    destruct n as [|n]; [lia|]. specialize (H2 ltac:(discriminate)).
    unfold HEADER_SIZE, READING_SIZE, PAYLOAD_LIMIT in H2. lia.
  - vm_compute. reflexivity.
Qed.

(** ** Out-of-range header fields *)

Lemma encode_header_refuses v m d s t :
  ~ (fits 1 v /\ fits 1 m /\ fits 2 d /\ fits 4 s /\ fits 4 t) ->
  encode_header v m d s t = raise (struct_error ArgOutOfRange).
Proof.
  intros H. unfold encode_header, Struct.pack_BBHII, Struct.pack_B,
    Struct.pack_H, Struct.pack_I.
  destruct (Z_le_dec 0 v) as [v0|v0], (Z_lt_dec v (256 ^ Z.of_nat 1)) as [v1|v1];
    try (rewrite StructFacts.pack_uint_refuses by lia; reflexivity).
  rewrite (StructFacts.pack_uint_fits 1 v) by lia. rewrite bind_ret.
  destruct (Z_le_dec 0 m) as [m0|m0], (Z_lt_dec m (256 ^ Z.of_nat 1)) as [m1|m1];
    try (rewrite StructFacts.pack_uint_refuses by lia; reflexivity).
  rewrite (StructFacts.pack_uint_fits 1 m) by lia. rewrite bind_ret.
  destruct (Z_le_dec 0 d) as [d0|d0], (Z_lt_dec d (256 ^ Z.of_nat 2)) as [d1|d1];
    try (rewrite StructFacts.pack_uint_refuses by lia; reflexivity).
  rewrite (StructFacts.pack_uint_fits 2 d) by lia. rewrite bind_ret.
  destruct (Z_le_dec 0 s) as [s0|s0], (Z_lt_dec s (256 ^ Z.of_nat 4)) as [s1|s1];
    try (rewrite StructFacts.pack_uint_refuses by lia; reflexivity).
  rewrite (StructFacts.pack_uint_fits 4 s) by lia. rewrite bind_ret.
  destruct (Z_le_dec 0 t) as [t0|t0], (Z_lt_dec t (256 ^ Z.of_nat 4)) as [t1|t1];
    try (rewrite StructFacts.pack_uint_refuses by lia; reflexivity).
  exfalso. apply H. unfold fits. repeat split; assumption.
Qed.

(** C9, as stated, fails: a version of 256 is not truncated to 0, the call
    raises [struct.error] and returns no bytes. *)
Lemma C9_out_of_range_is_refused :
  encode_header 256 0 0 0 0 = raise (struct_error ArgOutOfRange) /\
  ~ (exists frame, outcome (encode_header 256 0 0 0 0) = Ok frame).
Proof.
  split; [reflexivity|]. intros (frame & E). discriminate E.
Qed.

(** C9 (header field widths), amended: [encode_header] checks nothing
    itself, and [struct.pack] does not truncate.  When every field is within
    its declared width the call returns the 12 bytes of the fields; when some
    field is not, it raises [struct.error].  Whatever it returns has 12
    bytes. *)
Theorem C9_encode_header_widths (v m d s t : Z) :
  (fits 1 v /\ fits 1 m /\ fits 2 d /\ fits 4 s /\ fits 4 t ->
   encode_header v m d s t = ret (header_bytes v m d s t)) /\
  (~ (fits 1 v /\ fits 1 m /\ fits 2 d /\ fits 4 s /\ fits 4 t) ->
   encode_header v m d s t = raise (struct_error ArgOutOfRange)) /\
  (forall frame,
     outcome (encode_header v m d s t) = Ok frame -> List.length frame = 12).
Proof.
  split; [|split].
  - intros (Hv & Hm & Hd & Hs & Ht). apply encode_header_fits; assumption.
  - apply encode_header_refuses.
  - intros frame H.
    destruct (encode_header_cases v m d s t) as [E|E]; rewrite E in H.
    + injection H as <-. apply header_bytes_length.
    + discriminate H.
Qed.

Lemma C9_encode_header_widths_witness :
  encode_header 1 0 1001 0 1234567890 = ret sample_header /\
  encode_header 1 0 65536 0 1234567890 = raise (struct_error ArgOutOfRange).
Proof.
  split.
  - apply (C9_encode_header_widths 1 0 1001 0 1234567890).
    unfold fits. cbn. lia.
  - apply (C9_encode_header_widths 1 0 65536 0 1234567890).
    unfold fits. cbn. lia.
Defined.

(** C10 (trailing bytes): a buffer longer than the header that holds all the
    entries its count byte declares is decoded, and the bytes after the last
    entry play no part: the call on the buffer and the call on its first
    [13 + 5 * count] bytes return the same thing, the packet of the header
    fields with the [count] readings.  The count is not limited to 37: a
    buffer of 1288 bytes with count 255 decodes to 255 readings. *)
Theorem C10_trailing_bytes (data : bytes) :
  12 < List.length data ->
  13 + 5 * declared_count data <= List.length data ->
  decode_packet data =
  decode_packet (firstn (13 + 5 * declared_count data) data) /\
  decode_packet data =
  (declared_count data,
   Ok (packet_at data (readings_at data 13 (declared_count data)))) /\
  List.length (readings_at data 13 (declared_count data)) = declared_count data /\
  (exists p,
     outcome (decode_packet (repeat xff 1288)) = Ok p /\
     List.length (readings p) = 255).
Proof.
  intros Hlen Hfit.
  set (c := declared_count data) in *.
  set (k := 13 + 5 * c) in *.
  assert (Lk : List.length (firstn k data) = k)
    by (rewrite length_firstn; lia).
  assert (Ck : declared_count (firstn k data) = c).
  { unfold declared_count, HEADER_SIZE.
    rewrite StructFacts.field_firstn by (unfold k; lia). reflexivity. }
  assert (E : decode_packet data =
              (c, Ok (packet_at data (readings_at data 13 c))))
    by (apply decode_packet_inside; assumption).
  split; [|split; [exact E|split]].
  - rewrite E. rewrite decode_packet_inside;
      [ | rewrite Lk; unfold HEADER_SIZE, k; lia
        | rewrite Lk, Ck; apply Nat.le_refl ].
    rewrite Ck. unfold packet_at, HEADER_SIZE.
    rewrite !StructFacts.field_firstn by (unfold k; lia).
    change (12 + 1) with 13.
    rewrite readings_at_firstn by (unfold READING_SIZE, k; lia).
    reflexivity.
  - apply readings_at_length.
  - eexists. split; [vm_compute; reflexivity|]. vm_compute. reflexivity.
Qed.

Lemma C10_trailing_bytes_witness :
  decode_packet (sample_header ++ [x01; x01; x41; xc8; x00; x00; xde; xad]) =
  decode_packet (sample_header ++ [x01; x01; x41; xc8; x00; x00]).
Proof.
  apply (C10_trailing_bytes
           (sample_header ++ [x01; x01; x41; xc8; x00; x00; xde; xad])).
  - cbn. lia.
  - vm_compute. lia.
Defined.

(** * Further properties of the codec *)

(** ** Reading integers back into bytes *)

Section BytesOfValue.

Import Struct StructFacts.
Local Open Scope Z_scope.

Lemma be_fold_value bs : forall acc,
  fold_left (fun a b => a * 256 + Z_of_byte b) bs acc =
  acc * 256 ^ Z.of_nat (List.length bs) + be_value bs.
Proof.
  unfold be_value. induction bs as [|b bs IH]; intros acc.
  - cbn. lia.
  - cbn [fold_left List.length]. rewrite IH, (IH (0 * 256 + Z_of_byte b)).
    rewrite Nat2Z.inj_succ, Z.pow_succ_r by lia. lia.
Qed.

Lemma be_value_cons b bs :
  be_value (b :: bs) = Z_of_byte b * 256 ^ Z.of_nat (List.length bs) + be_value bs.
Proof.
  unfold be_value at 1. cbn [fold_left]. rewrite be_fold_value. lia.
Qed.

Lemma be_value_range bs : 0 <= be_value bs < 256 ^ Z.of_nat (List.length bs).
Proof.
  induction bs as [|b bs IH].
  - cbn. lia.
  - rewrite be_value_cons. cbn [List.length].
    rewrite Nat2Z.inj_succ, Z.pow_succ_r by lia.
    pose proof (Z_of_byte_range b). nia.
Qed.

Lemma byte_of_Z_mod hi b : byte_of_Z (hi * 256 + Z_of_byte b) = b.
Proof.
  unfold byte_of_Z. rewrite Z.add_comm, Z.mod_add by lia.
  fold (byte_of_Z (Z_of_byte b)). apply byte_of_Z_of_byte.
Qed.

(** Packing the value of a byte string gives the byte string back. *)
Lemma be_bytes_above bs : forall hi,
  be_bytes (List.length bs)
           (hi * 256 ^ Z.of_nat (List.length bs) + be_value bs) = bs.
Proof.
  induction bs as [|b bs IH]; intros hi; [reflexivity|].
  cbn [List.length be_bytes]. rewrite be_value_cons.
  rewrite Nat2Z.inj_succ, Z.pow_succ_r by lia.
  set (P := 256 ^ Z.of_nat (List.length bs)).
  assert (HP : 0 < P) by (apply Z.pow_pos_nonneg; lia).
  pose proof (be_value_range bs) as R. fold P in R.
  replace (hi * (256 * P) + (Z_of_byte b * P + be_value bs))
    with ((hi * 256 + Z_of_byte b) * P + be_value bs) by lia.
  f_equal.
  - rewrite Z.div_add_l by lia. rewrite Z.div_small by lia.
    rewrite Z.add_0_r. apply byte_of_Z_mod.
  - apply IH.
Qed.

Lemma be_bytes_be_value bs : be_bytes (List.length bs) (be_value bs) = bs.
Proof. apply (be_bytes_above bs 0). Qed.

(** A field that lies inside the buffer. *)
Lemma field_range lo n data : 0 <= field lo n data < 256 ^ Z.of_nat n.
Proof.
  unfold field. pose proof (be_value_range (slice lo (lo + n) data)) as R.
  pose proof (slice_length lo (lo + n) data) as L.
  assert (256 ^ Z.of_nat (List.length (slice lo (lo + n) data))
          <= 256 ^ Z.of_nat n) by (apply Z.pow_le_mono_r; lia).
  lia.
Qed.

Lemma be_bytes_field lo n data :
  (lo + n <= List.length data)%nat ->
  be_bytes n (field lo n data) = slice lo (lo + n) data.
Proof.
  intros H. unfold field.
  pose proof (slice_length lo (lo + n) data) as L.
  replace (Nat.min (lo + n - lo) (List.length data - lo)) with n in L by lia.
  rewrite <- L at 1. apply be_bytes_be_value.
Qed.

End BytesOfValue.

Lemma slice_concat {A} (l : list A) a b c :
  a <= b <= c -> slice a b l ++ slice b c l = slice a c l.
Proof.
  intros [Hab Hbc]. unfold slice.
  replace (skipn b l) with (skipn (b - a) (skipn a l))
    by (rewrite skipn_skipn; f_equal; lia).
  replace (c - a) with ((b - a) + (c - b)) by lia.
  generalize (skipn a l) as m. generalize (b - a) as i. generalize (c - b) as j.
  intros j i. induction i as [|i IH]; intros m.
  - reflexivity.
  - destruct m as [|x m]; cbn.
    + rewrite firstn_nil. reflexivity.
    + f_equal. apply IH.
Qed.

(** ** What a decoded packet looks like *)

Section DecodedFacts.

Import Struct StructFacts.

Lemma firstn_slice {A} n (l : list A) : firstn n l = slice 0 n l.
Proof. unfold slice. rewrite Nat.sub_0_r. reflexivity. Qed.

Lemma header_bytes_at data :
  HEADER_SIZE <= List.length data ->
  header_bytes (field 0 1 data) (field 1 1 data) (field 2 2 data)
               (field 4 4 data) (field 8 4 data) = firstn HEADER_SIZE data.
Proof.
  unfold HEADER_SIZE. intros H. unfold header_bytes.
  rewrite !be_bytes_field by lia. cbn [Nat.add].
  rewrite (slice_concat data 4 8 12) by lia.
  rewrite (slice_concat data 2 4 12) by lia.
  rewrite (slice_concat data 1 2 12) by lia.
  rewrite (slice_concat data 0 1 12) by lia.
  symmetry. apply firstn_slice.
Qed.

Lemma field_pattern lo data : (0 <= field lo 4 data < 2 ^ 32)%Z.
Proof. exact (field_range lo 4 data). Qed.

(** Entries whose values are not signalling NaNs are written as they were
    read. *)
Lemma entries_at data n : forall off,
  off + READING_SIZE * n <= List.length data ->
  entries_quiet data off n ->
  concat (map reading_bytes (readings_at data off n)) =
  slice off (off + READING_SIZE * n) data.
Proof.
  unfold READING_SIZE. induction n as [|n IH]; intros off H Q.
  - cbn [readings_at map concat]. unfold slice.
    replace (off + 5 * 0 - off) with 0 by lia. reflexivity.
  - cbn [entries_quiet] in Q. destruct Q as [Q1 Q2].
    cbn [readings_at map concat]. unfold reading_bytes at 1.
    cbn [sensor_type value].
    rewrite single_bits_widen by apply field_pattern.
    rewrite (quiet32_fixed _ Q1).
    rewrite !be_bytes_field by lia.
    unfold READING_SIZE in *. rewrite IH by (try assumption; lia).
    replace (off + 1 + 4) with (off + 5) by lia.
    replace (off + 5 + 5 * n) with (off + 5 * S n) by lia.
    rewrite <- app_assoc.
    rewrite (slice_concat data (off + 1) (off + 5)) by lia.
    apply slice_concat. lia.
Qed.

Lemma readings_at_in_range data n : forall off,
  Forall reading_in_range (readings_at data off n).
Proof.
  induction n as [|n IH]; intros off; cbn [readings_at]; constructor.
  - split; [apply field_range|apply widen_packable, field_pattern].
  - apply IH.
Qed.

Lemma packet_at_in_range data rs : header_in_range (packet_at data rs).
Proof.
  unfold header_in_range, packet_at, fits.
  cbn [version msg_type device_id seq_num timestamp].
  split; [|split; [|split; [|split]]]; apply field_range.
Qed.

(** The frame of the packet decoded from a buffer is the part of the buffer
    that was read. *)
Lemma data_frame_at data :
  HEADER_SIZE < List.length data ->
  HEADER_SIZE + 1 + READING_SIZE * declared_count data <= List.length data ->
  entries_quiet data (HEADER_SIZE + 1) (declared_count data) ->
  data_frame (packet_at data
                (readings_at data (HEADER_SIZE + 1) (declared_count data))) =
  firstn (HEADER_SIZE + 1 + READING_SIZE * declared_count data) data.
Proof.
  intros Hlen Hfit Hq. unfold data_frame. cbn [packet_at version msg_type device_id
    seq_num timestamp readings].
  rewrite header_bytes_at by lia. rewrite readings_at_length.
  unfold declared_count at 1.
  rewrite Z2Nat.id by apply field_range.
  rewrite be_bytes_field by (unfold HEADER_SIZE in *; lia).
  rewrite entries_at by assumption.
  rewrite !firstn_slice.
  rewrite (slice_concat data HEADER_SIZE (HEADER_SIZE + 1)) by lia.
  apply slice_concat. lia.
Qed.

End DecodedFacts.

(** ** Header and reading codecs on their own *)

(** X1 (header round trip): fields within their widths are packed into a
    header that [decode_header] reads back unchanged, whatever bytes follow
    the header in the buffer. *)
Theorem header_roundtrip (v m d s t : Z) :
  fits 1 v -> fits 1 m -> fits 2 d -> fits 4 s -> fits 4 t ->
  exists header,
    encode_header v m d s t = ret header /\
    forall rest, decode_header (header ++ rest) = ret (v, m, d, s, t).
Proof.
  intros Hv Hm Hd Hs Ht. exists (header_bytes v m d s t).
  split; [apply encode_header_fits; assumption|]. intros rest.
  rewrite decode_header_long
    by (rewrite length_app, header_bytes_length; apply Nat.le_add_r).
  pose proof (packet_at_header v m d s t rest [] Hv Hm Hd Hs Ht) as E.
  pose proof (f_equal version E) as E0. pose proof (f_equal msg_type E) as E1.
  pose proof (f_equal device_id E) as E2. pose proof (f_equal seq_num E) as E3.
  pose proof (f_equal timestamp E) as E4.
  cbn [packet_at version msg_type device_id seq_num timestamp] in E0, E1, E2, E3, E4.
  rewrite E0, E1, E2, E3, E4. reflexivity.
Qed.

Lemma header_roundtrip_witness :
  decode_header (sample_header ++ [xde; xad]) = ret (1, 0, 1001, 0, 1234567890)%Z.
Proof.
  destruct (header_roundtrip 1 0 1001 0 1234567890) as (h & E & D);
    try (unfold fits; cbn; lia).
  injection E as <-. apply D.
Defined.

(** X2 (headers of arbitrary buffers): on any buffer of at least 12 bytes
    [decode_header] succeeds, looks at the first 12 bytes only, returns
    fields that are within their declared widths, and packing those fields
    gives the first 12 bytes back. *)
Theorem decode_header_reencode (data : bytes) :
  12 <= List.length data ->
  exists v m d s t,
    decode_header data = ret (v, m, d, s, t) /\
    decode_header (firstn 12 data) = ret (v, m, d, s, t) /\
    (fits 1 v /\ fits 1 m /\ fits 2 d /\ fits 4 s /\ fits 4 t) /\
    encode_header v m d s t = ret (firstn 12 data).
Proof.
  intros H.
  exists (Struct.field 0 1 data), (Struct.field 1 1 data),
    (Struct.field 2 2 data), (Struct.field 4 4 data), (Struct.field 8 4 data).
  split; [apply decode_header_long, H|]. split; [|split].
  - rewrite decode_header_long by (rewrite length_firstn; unfold HEADER_SIZE; lia).
    rewrite !StructFacts.field_firstn by lia. reflexivity.
  - apply (packet_at_in_range data []).
  - pose proof (packet_at_in_range data []) as (Hv & Hm & Hd & Hs & Ht).
    rewrite encode_header_fits by assumption.
    rewrite header_bytes_at by exact H. reflexivity.
Qed.

Lemma decode_header_reencode_witness :
  exists v m d s t,
    decode_header (data_frame sample_data) = ret (v, m, d, s, t) /\
    encode_header v m d s t = ret (firstn 12 (data_frame sample_data)).
Proof.
  destruct (decode_header_reencode (data_frame sample_data))
    as (v & m & d & s & t & E & _ & _ & R).
  - apply Nat.leb_le. reflexivity.
  - exists v, m, d, s, t. split; assumption.
Defined.

(** X3 (reading round trip): a reading whose sensor type fits 8 bits and
    whose value the format takes is packed into 5 bytes that
    [decode_reading] reads back, whatever bytes follow them, with the same
    sensor type and the value rounded to single precision; a value that is
    single precision and not a signalling NaN is read back unchanged. *)
Theorem reading_roundtrip (st : Z) (v : float64) :
  fits 1 st -> packable v ->
  exists entry,
    encode_reading st v = ret entry /\
    List.length entry = 5 /\
    (forall rest,
       decode_reading (entry ++ rest) = ret (st, widen (single_bits v))) /\
    (single_precision v -> signalling v = false ->
     forall rest, decode_reading (entry ++ rest) = ret (st, v)).
Proof.
  intros Ht Hv.
  exists (Struct.be_bytes 1 st ++ Struct.be_bytes 4 (single_bits v)).
  assert (D : forall rest,
            decode_reading
              ((Struct.be_bytes 1 st ++ Struct.be_bytes 4 (single_bits v)) ++ rest)
            = ret (st, widen (single_bits v))).
  { intros rest. unfold decode_reading, Struct.unpack_Bf, READING_SIZE.
    rewrite slice_length, !length_app, !StructFacts.be_bytes_length.
    replace (Nat.min (5 - 0) (1 + 4 + List.length rest - 0)) with 5 by lia.
    cbn [Nat.eqb].
    rewrite !StructFacts.field_slice by lia. cbn [Nat.add].
    rewrite <- app_assoc.
    pose proof (StructFacts.field_packed [] 1 st
                  (Struct.be_bytes 4 (single_bits v) ++ rest) Ht) as E0.
    cbn [List.length app] in E0. rewrite E0.
    pose proof (StructFacts.field_packed (Struct.be_bytes 1 st) 4 (single_bits v)
                  rest (StructFacts.single_bits_range v Hv)) as E.
    rewrite StructFacts.be_bytes_length in E. rewrite E. reflexivity. }
  split; [|split; [|split]].
  - unfold encode_reading, Struct.pack_Bf, Struct.pack_B.
    rewrite (StructFacts.pack_uint_fits 1 st Ht), bind_ret.
    rewrite (StructFacts.pack_f_fits v Hv), bind_ret. reflexivity.
  - rewrite length_app, !StructFacts.be_bytes_length. reflexivity.
  - exact D.
  - intros (s & Hs & E) Q rest. rewrite D. subst v.
    rewrite (signalling_embed s Hs) in Q.
    destruct (StructFacts.widen_single_bits_embed s Hs Q) as [_ W].
    rewrite W. reflexivity.
Qed.

Lemma reading_roundtrip_witness :
  decode_reading [x03; x40; x53; x33; x33; xff] = ret (3%Z, f3_3_single).
Proof.
  destruct (reading_roundtrip 3 f3_3) as (e & E & _ & D & _).
  - unfold fits. cbn. lia.
  - split; [unfold binary64, f3_3; cbn; lia|]. vm_compute. discriminate.
  - injection E as <-. apply (D [xff]).
Defined.

(** X4 (short reading buffers): [decode_reading] has no length check of its
    own; on fewer than 5 bytes, the empty buffer included, [struct.unpack]
    raises [struct.error]. *)
Theorem decode_reading_short (data : bytes) :
  List.length data < 5 ->
  decode_reading data = raise (struct_error (BufferSize 5)).
Proof.
  intros H. unfold decode_reading, Struct.unpack_Bf, READING_SIZE.
  rewrite slice_length.
  destruct (Nat.eqb_spec (Nat.min (5 - 0) (List.length data - 0)) 5) as [E|E];
    [lia|reflexivity].
Qed.

Lemma decode_reading_short_witness :
  decode_reading [] = raise (struct_error (BufferSize 5)) /\
  decode_reading [x01; x41; xc8; x00] = raise (struct_error (BufferSize 5)).
Proof.
  split; apply decode_reading_short; cbn; lia.
Defined.

(** X5 (readings of arbitrary buffers): on any buffer of at least 5 bytes
    [decode_reading] succeeds, looks at the first 5 bytes only and returns a
    reading that can be packed again; packing it gives the first byte and
    the value bytes with a signalling NaN made quiet, hence the first 5 bytes
    back when the value bytes are not a signalling NaN. *)
Theorem decode_reading_reencode (data : bytes) :
  5 <= List.length data ->
  exists st v,
    decode_reading data = ret (st, v) /\
    (fits 1 st /\ packable v) /\
    encode_reading st v =
    ret (slice 0 1 data ++
         Struct.be_bytes 4 (quiet32 (Struct.field 1 4 data))) /\
    (signalling32 (Struct.field 1 4 data) = false ->
     encode_reading st v = ret (firstn 5 data)).
Proof.
  intros H.
  exists (Struct.field 0 1 data), (widen (Struct.field 1 4 data)).
  assert (R : encode_reading (Struct.field 0 1 data)
                (widen (Struct.field 1 4 data)) =
              ret (slice 0 1 data ++
                   Struct.be_bytes 4 (quiet32 (Struct.field 1 4 data)))).
  { unfold encode_reading, Struct.pack_Bf, Struct.pack_B.
    rewrite (StructFacts.pack_uint_fits 1) by apply field_range.
    rewrite bind_ret.
    rewrite StructFacts.pack_f_fits
      by apply StructFacts.widen_packable, field_pattern.
    rewrite bind_ret, StructFacts.single_bits_widen by apply field_pattern.
    rewrite be_bytes_field by lia. reflexivity. }
  split; [|split; [|split]].
  - unfold decode_reading, Struct.unpack_Bf, READING_SIZE.
    rewrite slice_length.
    replace (Nat.min (5 - 0) (List.length data - 0)) with 5 by lia.
    cbn [Nat.eqb]. rewrite !StructFacts.field_slice by lia. reflexivity.
  - split; [apply field_range|].
    apply StructFacts.widen_packable, field_pattern.
  - exact R.
  - intros Q. rewrite R, (quiet32_fixed _ Q).
    rewrite be_bytes_field by lia.
    cbn [Nat.add]. rewrite slice_concat by lia. rewrite firstn_slice.
    reflexivity.
Qed.

Lemma decode_reading_reencode_witness :
  exists st v,
    decode_reading [x03; x40; x53; x33; x33; x00; x00] = ret (st, v) /\
    encode_reading st v = ret [x03; x40; x53; x33; x33].
Proof.
  destruct (decode_reading_reencode [x03; x40; x53; x33; x33; x00; x00])
    as (st & v & E & _ & _ & R).
  - cbn. lia.
  - exists st, v. split; [exact E|]. apply R. vm_compute. reflexivity.
Defined.

(** ** Decoding arbitrary buffers *)

(** The four ways a call of [decode_packet] can go. *)
Lemma decode_packet_cases data :
  let count := declared_count data in
  (List.length data < 12 /\ decode_packet data = raise HeaderTooShort)
  \/ (List.length data = 12 /\ decode_packet data = ret (packet_at data []))
  \/ (12 < List.length data /\ 13 + 5 * count <= List.length data /\
      decode_packet data = (count, Ok (packet_at data (readings_at data 13 count))))
  \/ (12 < List.length data /\ List.length data < 13 + 5 * count /\
      exists k, 1 <= k <= count /\
        decode_packet data = (k, Raise (struct_error (BufferSize 5)))).
Proof.
  intros count.
  destruct (Nat.lt_trichotomy (List.length data) 12) as [H|[H|H]].
  - left. split; [exact H|]. apply decode_packet_short, H.
  - right. left. split; [exact H|]. apply decode_packet_header_only, H.
  - right. right.
    destruct (Nat.le_gt_cases (13 + 5 * count) (List.length data)) as [Hin|Hout].
    + left. repeat split; try assumption. apply decode_packet_inside; assumption.
    + right. repeat split; try assumption.
      apply decode_packet_outside; assumption.
Qed.

(** X6 (when decoding succeeds): [decode_packet] returns a packet exactly
    when the buffer has 12 bytes, or has more and holds all the entries that
    the byte at offset 12 declares. *)
Theorem decode_packet_succeeds_iff (data : bytes) :
  (exists p, outcome (decode_packet data) = Ok p) <->
  (List.length data = 12 \/
   (12 < List.length data /\
    13 + 5 * declared_count data <= List.length data)).
Proof.
  destruct (decode_packet_cases data)
    as [(L & E)|[(L & E)|[(L & F & E)|(L & F & k & _ & E)]]]; rewrite E; split.
  - intros (p & H). discriminate H.
  - intros [H|[H _]]; lia.
  - intros _. left. exact L.
  - intros _. eexists. reflexivity.
  - intros _. right. split; assumption.
  - intros _. eexists. reflexivity.
  - intros (p & H). discriminate H.
  - intros [H|[_ H]]; lia.
Qed.

(** X7 (how decoding fails): [decode_packet] raises the header's
    [ValueError] exactly on buffers shorter than 12 bytes, and then before
    any iteration; it raises the [struct.error] of a cut entry exactly on
    buffers longer than 12 bytes that end before the entries declared by the
    byte at offset 12 do; and it raises nothing else. *)
Theorem decode_packet_errors (data : bytes) :
  (outcome (decode_packet data) = Raise HeaderTooShort <->
   List.length data < 12) /\
  (List.length data < 12 -> iterations (decode_packet data) = 0) /\
  (outcome (decode_packet data) = Raise (struct_error (BufferSize 5)) <->
   12 < List.length data /\
   List.length data < 13 + 5 * declared_count data) /\
  (forall e,
     outcome (decode_packet data) = Raise e ->
     e = HeaderTooShort \/ e = struct_error (BufferSize 5)).
Proof.
  destruct (decode_packet_cases data)
    as [(L & E)|[(L & E)|[(L & F & E)|(L & F & k & _ & E)]]]; rewrite E;
    cbn [outcome iterations fst snd raise ret].
  - split; [split; [intros _; exact L|reflexivity]|].
    split; [reflexivity|]. split.
    + split; [discriminate|intros [H _]; lia].
    + intros e H. injection H as <-. left. reflexivity.
  - split; [split; [discriminate|lia]|].
    split; [reflexivity|]. split.
    + split; [discriminate|intros [H _]; lia].
    + intros e H. discriminate H.
  - split; [split; [discriminate|lia]|].
    split; [lia|]. split.
    + split; [discriminate|intros [_ H]; lia].
    + intros e H. discriminate H.
  - split; [split; [discriminate|lia]|].
    split; [lia|]. split.
    + split; [intros _; split; assumption|reflexivity].
    + intros e H. injection H as <-. right. reflexivity.
Qed.

Lemma decode_packet_errors_witness :
  outcome (decode_packet (firstn 20 (data_frame sample_data))) =
  Raise (struct_error (BufferSize 5)) /\
  outcome (decode_packet (firstn 11 (data_frame sample_data))) =
  Raise HeaderTooShort.
Proof.
  split.
  - apply (decode_packet_errors (firstn 20 (data_frame sample_data))).
    split; [apply Nat.ltb_lt; reflexivity|].
    apply Nat.ltb_lt. vm_compute. reflexivity.
  - apply (decode_packet_errors (firstn 11 (data_frame sample_data))).
    apply Nat.ltb_lt. reflexivity.
Defined.

(** X8 (decoded packets are well formed): every packet [decode_packet]
    returns has header fields and readings within their declared widths and
    at most 255 readings, and the call ran one iteration per reading. *)
Theorem decoded_packet_in_range (data : bytes) (p : TelemetryPacket) :
  outcome (decode_packet data) = Ok p ->
  header_in_range p /\
  Forall reading_in_range (readings p) /\
  List.length (readings p) <= 255 /\
  iterations (decode_packet data) = List.length (readings p).
Proof.
  intros H.
  destruct (decode_packet_cases data)
    as [(L & E)|[(L & E)|[(L & F & E)|(L & F & k & _ & E)]]];
    rewrite E in H |- *; try discriminate H; injection H as <-.
  - split; [apply packet_at_in_range|]. repeat split; [constructor|apply Nat.le_0_l].
  - split; [apply packet_at_in_range|]. cbn [packet_at readings].
    split; [apply readings_at_in_range|]. rewrite readings_at_length.
    split; [apply declared_count_byte|reflexivity].
Qed.

Lemma decoded_packet_in_range_witness :
  header_in_range sample_data /\
  Forall reading_in_range (readings sample_data) /\
  List.length (readings sample_data) <= 255 /\
  iterations (decode_packet (data_frame sample_data)) =
  List.length (readings sample_data).
Proof.
  apply (decoded_packet_in_range (data_frame sample_data) sample_data).
  vm_compute. reflexivity.
Defined.

(** X9 (re-encoding a decoded DATA buffer): if a buffer longer than the
    header decodes to a DATA packet with at most 37 readings and none of the
    values stored in its entries is a signalling NaN, encoding that packet
    gives back the part of the buffer that was read, that is the buffer
    without its trailing bytes, and the whole buffer when it has none. *)
Theorem reencode_decoded_data (data : bytes) (p : TelemetryPacket) :
  12 < List.length data ->
  outcome (decode_packet data) = Ok p ->
  msg_type p = MSG_DATA ->
  List.length (readings p) <= 37 ->
  entries_quiet data 13 (List.length (readings p)) ->
  encode_packet p =
  (List.length (readings p),
   Ok (firstn (13 + 5 * List.length (readings p)) data)) /\
  (List.length data = 13 + 5 * List.length (readings p) ->
   outcome (encode_packet p) = Ok data).
Proof.
  intros Hlen H Hm Hn Hq.
  destruct (decode_packet_cases data)
    as [(L & E)|[(L & E)|[(L & F & E)|(L & F & k & _ & E)]]];
    rewrite E in H; try discriminate H; try lia.
  injection H as <-. cbn [packet_at readings] in *.
  rewrite readings_at_length in *.
  assert (R : encode_packet
                (packet_at data (readings_at data 13 (declared_count data))) =
              (declared_count data,
               Ok (firstn (13 + 5 * declared_count data) data))).
  { pose proof (data_frame_at data L F Hq) as D.
    change (HEADER_SIZE + 1) with 13 in D. change READING_SIZE with 5 in D.
    rewrite encode_packet_fits.
    - rewrite D. cbn [packet_at readings]. rewrite readings_at_length.
      reflexivity.
    - exact Hm.
    - apply packet_at_in_range.
    - cbn [packet_at readings]. rewrite readings_at_length.
      unfold HEADER_SIZE, READING_SIZE, PAYLOAD_LIMIT. lia.
    - apply readings_at_in_range. }
  split; [exact R|]. intros Hall. unfold packet_at in R |- *. rewrite R.
  cbn [outcome snd]. rewrite <- Hall, firstn_all. reflexivity.
Qed.

Lemma reencode_decoded_data_witness :
  encode_packet sample_data = (3, Ok (data_frame sample_data)).
Proof.
  destruct (reencode_decoded_data (data_frame sample_data ++ [xde; xad]) sample_data)
    as (E & _).
  - apply Nat.ltb_lt. reflexivity.
  - vm_compute. reflexivity.
  - reflexivity.
  - apply Nat.leb_le. reflexivity.
  - vm_compute. repeat split.
  - exact E.
Defined.

(** X10 (decodable but not encodable): the decoder accepts DATA buffers that
    the encoder cannot produce.  If a buffer decodes to a DATA packet with
    38 readings or more, encoding that packet raises the payload-limit
    error. *)
Theorem reencode_decoded_large (data : bytes) (p : TelemetryPacket) :
  outcome (decode_packet data) = Ok p ->
  msg_type p = MSG_DATA ->
  38 <= List.length (readings p) ->
  encode_packet p = raise PayloadTooLarge.
Proof.
  intros H Hm Hn. apply encode_packet_large; [exact Hm| |].
  - destruct (decode_packet_cases data)
      as [(L & E)|[(L & E)|[(L & F & E)|(L & F & k & _ & E)]]];
      rewrite E in H; try discriminate H; injection H as <-;
      apply packet_at_in_range.
  - unfold HEADER_SIZE, READING_SIZE, PAYLOAD_LIMIT. lia.
Qed.

Lemma reencode_decoded_large_witness :
  exists p,
    outcome (decode_packet (x01 :: x01 :: repeat x26 201)) = Ok p /\
    encode_packet p = raise PayloadTooLarge.
Proof.
  eexists. split; [vm_compute; reflexivity|].
  eapply (reencode_decoded_large (x01 :: x01 :: repeat x26 201)).
  - vm_compute. reflexivity.
  - reflexivity.
  - apply Nat.leb_le. reflexivity.
Defined.

(** X11 (a reading section under a non-DATA type is lost): if a buffer
    decodes to a packet whose type is not DATA, encoding that packet returns
    the first 12 bytes of the buffer and nothing else, however many readings
    were decoded. *)
Theorem reencode_decoded_other (data : bytes) (p : TelemetryPacket) :
  outcome (decode_packet data) = Ok p ->
  msg_type p <> MSG_DATA ->
  encode_packet p = ret (firstn 12 data).
Proof.
  intros H Hm. rewrite encode_packet_other by exact Hm.
  destruct (decode_packet_cases data)
    as [(L & E)|[(L & E)|[(L & F & E)|(L & F & k & _ & E)]]];
    rewrite E in H; try discriminate H; injection H as <-;
    rewrite header_fits by apply packet_at_in_range;
    cbn [packet_at version msg_type device_id seq_num timestamp];
    rewrite header_bytes_at by (unfold HEADER_SIZE; lia); reflexivity.
Qed.

Lemma reencode_decoded_other_witness :
  exists p,
    outcome (decode_packet (sample_header ++ [x01; x01; x41; xc8; x00; x00]))
    = Ok p /\
    List.length (readings p) = 1 /\
    encode_packet p = ret sample_header.
Proof.
  eexists. split; [vm_compute; reflexivity|]. split; [reflexivity|].
  apply (reencode_decoded_other
           (sample_header ++ [x01; x01; x41; xc8; x00; x00])).
  - vm_compute. reflexivity.
  - discriminate.
Defined.

(** X12 (a bare DATA header grows by one byte): a 12-byte buffer whose type
    byte is DATA decodes to a packet with no readings, and encoding that
    packet returns 13 bytes: the buffer followed by a zero count. *)
Theorem reencode_bare_data_header (data : bytes) :
  List.length data = 12 ->
  Struct.field 1 1 data = MSG_DATA ->
  exists p,
    decode_packet data = ret p /\
    readings p = [] /\
    encode_packet p = ret (data ++ [x00]).
Proof.
  intros L Hm. exists (packet_at data []).
  split; [apply decode_packet_header_only, L|]. split; [reflexivity|].
  rewrite encode_packet_fits.
  - unfold data_frame.
    cbn [packet_at version msg_type device_id seq_num timestamp readings
         List.length map concat].
    rewrite header_bytes_at by (rewrite L; apply Nat.le_refl).
    unfold HEADER_SIZE. rewrite <- L, firstn_all. reflexivity.
  - exact Hm.
  - apply packet_at_in_range.
  - apply Nat.leb_le. reflexivity.
  - constructor.
Qed.

Lemma reencode_bare_data_header_witness :
  exists p,
    decode_packet (firstn 12 (data_frame sample_data)) = ret p /\
    encode_packet p = ret (firstn 12 (data_frame sample_data) ++ [x00]).
Proof.
  destruct (reencode_bare_data_header (firstn 12 (data_frame sample_data)))
    as (p & D & _ & E).
  - reflexivity.
  - vm_compute. reflexivity.
  - exists p. split; assumption.
Defined.

(** ** Encoding arbitrary packets *)

Section EncodeArbitrary.

Import Struct StructFacts.

Lemma fits_dec n x : {fits n x} + {~ fits n x}.
Proof.
  unfold fits.
  destruct (Z_le_dec 0 x), (Z_lt_dec x (256 ^ Z.of_nat n));
    [left; split; assumption | right; lia ..].
Qed.

Lemma header_in_range_dec p : {header_in_range p} + {~ header_in_range p}.
Proof.
  unfold header_in_range.
  destruct (fits_dec 1 (version p)); [|right; tauto].
  destruct (fits_dec 1 (msg_type p)); [|right; tauto].
  destruct (fits_dec 2 (device_id p)); [|right; tauto].
  destruct (fits_dec 4 (seq_num p)); [|right; tauto].
  destruct (fits_dec 4 (timestamp p)); [left; tauto|right; tauto].
Qed.

Lemma reading_in_range_dec r : {reading_in_range r} + {~ reading_in_range r}.
Proof.
  unfold reading_in_range.
  destruct (fits_dec 1 (sensor_type r)); [|right; tauto].
  destruct (packable_dec (value r)); [left; tauto|right; tauto].
Qed.

Lemma encode_step_refuses r data :
  ~ reading_in_range r ->
  exists e, pack_error e /\ encode_step r data = raise e.
Proof.
  intros H. unfold encode_step, encode_reading, pack_Bf, pack_B, pack_error.
  destruct (fits_dec 1 (sensor_type r)) as [Ht|Ht].
  - rewrite (pack_uint_fits 1 _ Ht), bind_ret.
    destruct (packable_dec (value r)) as [Hv|Hv].
    + exfalso. apply H. split; assumption.
    + destruct (pack_f_refuses _ Hv) as [E|E]; rewrite E;
        eexists; (split; [|reflexivity]); [right|left]; reflexivity.
  - rewrite (pack_uint_refuses 1 _ Ht). eexists. split; [left|]; reflexivity.
Qed.

(** The loop completes only if every reading fits. *)
Lemma encode_loop_ok_inv rs : forall data out,
  outcome (for_each rs encode_step data) = Ok out ->
  Forall reading_in_range rs.
Proof.
  induction rs as [|r rs IH]; intros data out H; [constructor|].
  destruct (reading_in_range_dec r) as [Hr|Hr].
  - rewrite (for_each_cons_ok _ _ _ _ _ (encode_step_fits r data Hr)) in H.
    constructor; [exact Hr|]. exact (IH _ _ H).
  - destruct (encode_step_refuses r data Hr) as (e & _ & E).
    rewrite (for_each_cons_raise _ _ _ _ _ E) in H. discriminate H.
Qed.

(** The loop stops at the first reading that does not fit. *)
Lemma encode_loop_first_bad good : forall bad rest data,
  Forall reading_in_range good -> ~ reading_in_range bad ->
  exists e, pack_error e /\
    for_each (good ++ bad :: rest) encode_step data =
    (S (List.length good), Raise e).
Proof.
  induction good as [|g good IH]; intros bad rest data Hg Hb.
  - destruct (encode_step_refuses bad data Hb) as (e & He & E).
    exists e. split; [exact He|]. apply for_each_cons_raise, E.
  - inversion Hg as [|? ? Hg1 Hg2]; subst.
    destruct (IH bad rest (data ++ reading_bytes g) Hg2 Hb) as (e & He & E).
    exists e. split; [exact He|]. cbn [app List.length].
    rewrite (for_each_cons_ok _ _ _ _ _ (encode_step_fits g data Hg1)), E.
    reflexivity.
Qed.

Lemma encode_packet_header_refused p :
  ~ header_in_range p -> encode_packet p = raise (struct_error ArgOutOfRange).
Proof.
  intros H. unfold encode_packet. rewrite encode_header_refuses by exact H.
  reflexivity.
Qed.

(** What a successful call has checked, and what it returns. *)
Lemma encode_packet_ok_inv p frame :
  outcome (encode_packet p) = Ok frame ->
  header_in_range p /\
  ((msg_type p <> MSG_DATA /\
    encode_packet p =
    ret (header_bytes (version p) (msg_type p) (device_id p) (seq_num p)
           (timestamp p))) \/
   (msg_type p = MSG_DATA /\ List.length (readings p) <= 37 /\
    Forall reading_in_range (readings p) /\
    encode_packet p = (List.length (readings p), Ok (data_frame p)))).
Proof.
  intros H.
  destruct (header_in_range_dec p) as [Hh|Hh];
    [|rewrite (encode_packet_header_refused p Hh) in H; discriminate H].
  split; [exact Hh|].
  destruct (encode_packet_cases p) as [E|[(Hm & E)|[(Hm & _ & E)|(Hm & Hs & E)]]].
  - rewrite E in H. discriminate H.
  - left. split; assumption.
  - rewrite E in H. discriminate H.
  - right. rewrite E in H. apply encode_loop_ok_inv in H.
    split; [exact Hm|].
    split; [unfold HEADER_SIZE, READING_SIZE, PAYLOAD_LIMIT in Hs; lia|].
    split; [exact H|]. apply encode_packet_fits; assumption.
Qed.

End EncodeArbitrary.

(** X13 (when encoding succeeds): [encode_packet] returns a frame exactly
    when the header fields are within their declared widths and, for a DATA
    packet, there are at most 37 readings and each is within its widths.
    The readings of a packet of another type are never looked at. *)
Theorem encode_packet_succeeds_iff (p : TelemetryPacket) :
  (exists frame, outcome (encode_packet p) = Ok frame) <->
  header_in_range p /\
  (msg_type p = MSG_DATA ->
   List.length (readings p) <= 37 /\ Forall reading_in_range (readings p)).
Proof.
  split.
  - intros (frame & H).
    destruct (encode_packet_ok_inv p frame H) as (Hh & [(Hm & _)|(_ & Hn & Hr & _)]).
    + split; [exact Hh|]. intros Hd. contradiction.
    + split; [exact Hh|]. intros _. split; assumption.
  - intros (Hh & Hd). destruct (Z.eq_dec (msg_type p) MSG_DATA) as [Hm|Hm].
    + destruct (Hd Hm) as (Hn & Hr). exists (data_frame p).
      rewrite encode_packet_fits; try assumption; [reflexivity|].
      unfold HEADER_SIZE, READING_SIZE, PAYLOAD_LIMIT. lia.
    + eexists. rewrite encode_packet_other by exact Hm.
      rewrite header_fits by exact Hh. reflexivity.
Qed.

(** X14 (how encoding fails): the only exceptions of [encode_packet] are the
    two of [struct.pack] and the payload-limit [ValueError]; the latter is
    raised only for a DATA packet with more than 37 readings, before any
    iteration. *)
Theorem encode_packet_errors (p : TelemetryPacket) (e : exn) :
  outcome (encode_packet p) = Raise e ->
  pack_error e \/
  (e = PayloadTooLarge /\ msg_type p = MSG_DATA /\
   37 < List.length (readings p) /\ iterations (encode_packet p) = 0).
Proof.
  intros H.
  destruct (encode_packet_cases p) as [E|[(Hm & E)|[(Hm & Hs & E)|(Hm & Hs & E)]]];
    rewrite E in H |- *.
  - injection H as <-. left. left. reflexivity.
  - discriminate H.
  - injection H as <-. right. repeat split; try assumption.
    unfold HEADER_SIZE, READING_SIZE, PAYLOAD_LIMIT in Hs. lia.
  - left. exact (encode_loop_error _ _ _ H).
Qed.

Lemma encode_packet_errors_witness :
  37 < List.length (readings (sample_full 40)) /\
  iterations (encode_packet (sample_full 40)) = 0.
Proof.
  destruct (encode_packet_errors (sample_full 40) PayloadTooLarge)
    as [[E|E]|(_ & _ & H)].
  - vm_compute. reflexivity.
  - discriminate E.
  - discriminate E.
  - exact H.
Defined.

(** X15 (the header is checked first): a header field outside its width
    makes [encode_packet] raise [struct.error] before anything else is
    looked at, also for a DATA packet with more than 37 readings. *)
Theorem header_error_first (p : TelemetryPacket) :
  ~ header_in_range p ->
  encode_packet p = raise (struct_error ArgOutOfRange).
Proof. apply encode_packet_header_refused. Qed.

Lemma header_error_first_witness :
  encode_packet
    (mkTelemetryPacket 256 MSG_DATA 1001 1 1234567890
       (readings (sample_full 40))) = raise (struct_error ArgOutOfRange).
Proof.
  apply header_error_first. unfold header_in_range, fits.
  cbn [version]. cbn. lia.
Defined.

(** X16 (the loop stops at the first bad reading): for a DATA packet within
    the size limit whose header fits, if the readings before position [k]
    fit and the reading at position [k] does not, [encode_packet] raises a
    [struct.pack] error in iteration [k + 1] and returns no bytes. *)
Theorem encode_stops_at_first_bad (p : TelemetryPacket)
        (good rest : list SensorReading) (bad : SensorReading) :
  msg_type p = MSG_DATA ->
  header_in_range p ->
  readings p = good ++ bad :: rest ->
  List.length (readings p) <= 37 ->
  Forall reading_in_range good ->
  ~ reading_in_range bad ->
  exists e, pack_error e /\
    encode_packet p = (S (List.length good), Raise e).
Proof.
  intros Hm Hh Hrs Hn Hg Hb.
  unfold encode_packet. rewrite (header_fits p Hh), bind_ret.
  apply Z.eqb_eq in Hm. rewrite Hm.
  destruct (Nat.ltb_spec PAYLOAD_LIMIT
              (HEADER_SIZE + 1 + List.length (readings p) * READING_SIZE))
    as [Hs|Hs];
    [unfold HEADER_SIZE, READING_SIZE, PAYLOAD_LIMIT in Hs; lia|].
  unfold Struct.pack_B. rewrite StructFacts.pack_uint_fits, bind_ret.
  - rewrite Hrs. apply encode_loop_first_bad; assumption.
  - change (256 ^ Z.of_nat 1)%Z with 256%Z. lia.
Qed.

Lemma encode_stops_at_first_bad_witness :
  exists e, pack_error e /\
    encode_packet
      (mkTelemetryPacket 1 MSG_DATA 1001 1 1234567890
         [mkSensorReading 1 f25_0; mkSensorReading 2 (mkFloat64 false 1152 0);
          mkSensorReading 3 f3_3]) = (2, Raise e).
Proof.
  apply (encode_stops_at_first_bad
           (mkTelemetryPacket 1 MSG_DATA 1001 1 1234567890
              [mkSensorReading 1 f25_0;
               mkSensorReading 2 (mkFloat64 false 1152 0);
               mkSensorReading 3 f3_3])
           [mkSensorReading 1 f25_0] [mkSensorReading 3 f3_3]
           (mkSensorReading 2 (mkFloat64 false 1152 0))).
  - reflexivity.
  - unfold header_in_range, fits, MSG_DATA. cbn. lia.
  - reflexivity.
  - cbn. lia.
  - constructor; [|constructor]. split; [unfold fits; cbn; lia|].
    split; [unfold binary64, f25_0; cbn; lia|]. vm_compute. discriminate.
  - intros [_ [_ N]]. apply N. vm_compute. reflexivity.
Defined.

(** ** Frames the encoder returns *)

(** What the decoder makes of a frame the encoder returned. *)
Lemma decode_encoded_frame p frame :
  outcome (encode_packet p) = Ok frame ->
  outcome (decode_packet frame) =
  Ok (with_readings p
        (if (msg_type p =? MSG_DATA)%Z then map rounded (readings p) else [])).
Proof.
  intros H.
  destruct (encode_packet_ok_inv p frame H)
    as (Hh & [(Hm & E)|(Hm & Hn & Hr & E)]); rewrite E in H;
    injection H as <-.
  - apply Z.eqb_neq in Hm. rewrite Hm.
    rewrite decode_packet_header_only by apply header_bytes_length.
    cbn [outcome ret snd]. f_equal.
    destruct Hh as (Hv & Hmt & Hd & Hs & Ht).
    rewrite <- (app_nil_r (header_bytes _ _ _ _ _)).
    apply packet_at_header; assumption.
  - rewrite decode_data_frame by (try assumption; lia).
    apply Z.eqb_eq in Hm. rewrite Hm. reflexivity.
Qed.

(** X17 (every returned frame decodes): whatever packet [encode_packet]
    accepts, [decode_packet] accepts the frame and returns the same header
    fields; for a DATA packet it returns the readings in the same order with
    the same sensor types and each value rounded to single precision, and
    for any other packet no readings. *)
Theorem decode_encoded (p : TelemetryPacket) (frame : bytes) :
  outcome (encode_packet p) = Ok frame ->
  exists q,
    outcome (decode_packet frame) = Ok q /\
    version q = version p /\ msg_type q = msg_type p /\
    device_id q = device_id p /\ seq_num q = seq_num p /\
    timestamp q = timestamp p /\
    (msg_type p = MSG_DATA -> readings q = map rounded (readings p)) /\
    (msg_type p <> MSG_DATA -> readings q = []).
Proof.
  intros H. eexists. split; [apply (decode_encoded_frame p frame H)|].
  cbn [with_readings version msg_type device_id seq_num timestamp readings].
  repeat split.
  - intros Hm. apply Z.eqb_eq in Hm. rewrite Hm. reflexivity.
  - intros Hm. apply Z.eqb_neq in Hm. rewrite Hm. reflexivity.
Qed.

Lemma decode_encoded_witness :
  exists q,
    outcome (decode_packet (data_frame sample_selftest)) = Ok q /\
    readings q = readings sample_data.
Proof.
  destruct (decode_encoded sample_selftest (data_frame sample_selftest))
    as (q & D & _ & _ & _ & _ & _ & Hr & _).
  - vm_compute. reflexivity.
  - exists q. split; [exact D|]. rewrite Hr by reflexivity.
    vm_compute. reflexivity.
Defined.

(** X18 (frames identify packets up to rounding): two packets that
    [encode_packet] maps to the same frame have the same header fields, and if
    they are DATA packets their readings agree once every value is rounded
    to single precision. *)
Theorem encode_packet_injective (p q : TelemetryPacket) (frame : bytes) :
  outcome (encode_packet p) = Ok frame ->
  outcome (encode_packet q) = Ok frame ->
  version p = version q /\ msg_type p = msg_type q /\
  device_id p = device_id q /\ seq_num p = seq_num q /\
  timestamp p = timestamp q /\
  (msg_type p = MSG_DATA ->
   map rounded (readings p) = map rounded (readings q)).
Proof.
  intros Hp Hq.
  pose proof (decode_encoded_frame p frame Hp) as Dp.
  pose proof (decode_encoded_frame q frame Hq) as Dq.
  rewrite Dp in Dq. unfold with_readings in Dq.
  injection Dq as Ev Em Ed Es Et Er.
  repeat split; try assumption.
  intros Hm. rewrite <- Em in Er. apply Z.eqb_eq in Hm. rewrite Hm in Er.
  exact Er.
Qed.

Lemma encode_packet_injective_witness :
  map rounded (readings sample_selftest) = map rounded (readings sample_data).
Proof.
  destruct (encode_packet_injective sample_selftest sample_data
              (data_frame sample_data)) as (_ & _ & _ & _ & _ & Hr).
  - vm_compute. reflexivity.
  - vm_compute. reflexivity.
  - apply Hr. reflexivity.
Defined.

(** X19 (size of returned frames): a frame [encode_packet] returns has at
    least the 12 header bytes and never more than the payload limit (in fact
    at most 198 bytes), and the call ran one iteration per reading of a DATA
    packet and none for another type. *)
Theorem encoded_frame_size (p : TelemetryPacket) (frame : bytes) :
  outcome (encode_packet p) = Ok frame ->
  12 <= List.length frame <= 198 /\
  List.length frame <= PAYLOAD_LIMIT /\
  iterations (encode_packet p) =
  (if (msg_type p =? MSG_DATA)%Z then List.length (readings p) else 0).
Proof.
  intros H.
  destruct (encode_packet_ok_inv p frame H)
    as (_ & [(Hm & E)|(Hm & Hn & _ & E)]); rewrite E in H |- *;
    injection H as <-.
  - apply Z.eqb_neq in Hm. rewrite Hm, header_bytes_length.
    unfold HEADER_SIZE, PAYLOAD_LIMIT. repeat split; lia.
  - apply Z.eqb_eq in Hm. rewrite Hm, data_frame_length.
    unfold HEADER_SIZE, READING_SIZE, PAYLOAD_LIMIT. repeat split; lia.
Qed.

Lemma encoded_frame_size_witness :
  List.length (data_frame (sample_full 37)) <= PAYLOAD_LIMIT /\
  iterations (encode_packet (sample_full 37)) = 37.
Proof.
  destruct (encoded_frame_size (sample_full 37) (data_frame (sample_full 37)))
    as (_ & L & I).
  - vm_compute. reflexivity.
  - split; [exact L|exact I].
Defined.

(** X20 (wire layout of the header): [decode_header] reads the version at
    offset 0, the type at offset 1, the device identifier from the two bytes
    at offset 2, the sequence number from the four bytes at offset 4 and the
    timestamp from the four bytes at offset 8, each most significant byte
    first, and ignores what follows. *)
Theorem decode_header_layout
        (b0 b1 b2 b3 b4 b5 b6 b7 b8 b9 b10 b11 : byte) (rest : bytes) :
  let Z := Struct.Z_of_byte in
  decode_header
    (b0 :: b1 :: b2 :: b3 :: b4 :: b5 :: b6 :: b7 :: b8 :: b9 :: b10 :: b11
        :: rest) =
  ret (Z b0, Z b1, (Z b2 * 256 + Z b3)%Z,
       (((Z b4 * 256 + Z b5) * 256 + Z b6) * 256 + Z b7)%Z,
       (((Z b8 * 256 + Z b9) * 256 + Z b10) * 256 + Z b11)%Z).
Proof.
  intros Z. rewrite decode_header_long by (cbn [List.length]; unfold HEADER_SIZE; lia).
  unfold Struct.field, slice, Struct.be_value.
  cbn [Nat.add Nat.sub skipn firstn fold_left]. fold Z.
  repeat f_equal; lia.
Qed.
